(** * shopify-mcp: the tool dispatch layer of [src/server-http.ts]

    The development embeds the HTTP wrapper of the Shopify MCP server:
    the per-tool handlers stored by [registerTool], the argument schemas
    handed to [mcpServer.tool], and the [app.post('/mcp')] route.  The
    tool units ([./tools/*.js]) and the JavaScript runtime services the
    route relies on are taken as an interface ([Host]). *)

From Stdlib Require Import Floats.
From stdpp Require Import gmap strings list fin_maps.

Set Warnings "-register-all".
Open Scope string_scope.

(** ** JavaScript values

    What [JSON.parse] can produce, plus [undefined].  Numbers are IEEE
    doubles, objects are finite maps from property names to values. *)

Inductive value :=
| VUndef
| VNull
| VBool (b : bool)
| VNum (n : float)
| VStr (s : string)
| VArr (items : list value)
| VObj (fields : gmap string value).

(** [v.k] for the property names this program reads ([method], [params],
    [name], [arguments], [limit], [status], ...): none of them is defined
    by a built-in prototype, so the read is an own-property lookup on an
    object and [undefined] on every other non-nullish value (the route
    guards every read that could meet [null] or [undefined]). *)
Definition get (k : string) (v : value) : value :=
  match v with
  | VObj fields => default VUndef (fields !! k)
  | _ => VUndef
  end.

(** [k in v], for the same property names. *)
Definition has_own (k : string) (v : value) : bool :=
  match v with
  | VObj fields => bool_decide (is_Some (fields !! k))
  | _ => false
  end.

(** ToBoolean: [undefined], [null], [false], [0], [-0], [NaN] and [""]
    are falsy. *)
Definition truthy (v : value) : bool :=
  match v with
  | VUndef | VNull => false
  | VBool b => b
  | VNum n => negb (PrimFloat.eqb n 0 || PrimFloat.is_nan n)
  | VStr s => negb (bool_decide (s = ""))
  | VArr _ | VObj _ => true
  end.

(** [typeof v === 'object'] *)
Definition typeof_object (v : value) : bool :=
  match v with
  | VNull | VArr _ | VObj _ => true
  | _ => false
  end.

(** [a ?? b] *)
Definition nullish (a b : value) : value :=
  match a with
  | VUndef | VNull => b
  | _ => a
  end.

(** [a || b] *)
Definition or_else (a b : value) : value :=
  if truthy a then a else b.

(** [args?.k] *)
Definition opt_get (k : string) (args : value) : value :=
  match args with
  | VUndef | VNull => VUndef
  | _ => get k args
  end.

(** [a === s] against a string literal. *)
Definition is_string (s : string) (a : value) : bool :=
  match a with
  | VStr x => bool_decide (x = s)
  | _ => false
  end.

(** An object literal [{ k1: v1, ..., kn: vn }]; a later duplicate key
    overwrites an earlier one. *)
Definition object (props : list (string * value)) : value :=
  VObj (foldl (λ fields p, <[p.1 := p.2]> fields) ∅ props).

(** ** Tools *)

Inductive tool :=
| GetProducts | GetProductById | GetCustomers | GetOrders | GetOrderById
| UpdateOrder | GetCustomerOrders | UpdateCustomer | CreateProduct.

#[global] Instance tool_eq_dec : EqDecision tool.
Proof. solve_decision. Defined.

Definition all_tools : list tool :=
  [GetProducts; GetProductById; GetCustomers; GetOrders; GetOrderById;
   UpdateOrder; GetCustomerOrders; UpdateCustomer; CreateProduct].

Definition tool_name (t : tool) : string :=
  match t with
  | GetProducts => "get-products"
  | GetProductById => "get-product-by-id"
  | GetCustomers => "get-customers"
  | GetOrders => "get-orders"
  | GetOrderById => "get-order-by-id"
  | UpdateOrder => "update-order"
  | GetCustomerOrders => "get-customer-orders"
  | UpdateCustomer => "update-customer"
  | CreateProduct => "create-product"
  end.

(** ** Exceptions

    What a [throw] (or a rejected promise) carries: an [Error] instance
    with its [message] and [stack], or any other value. *)

Inductive thrown :=
| JsError (message stack : string)
| Raised (v : value).

Inductive result (A : Type) :=
| Ok (a : A)
| Throw (e : thrown).
Arguments Ok {A} a.
Arguments Throw {A} e.

(** ** The environment of the route

    [execute t] is [<tool>.execute] of the tool unit imported from
    [./tools/], after [initialize(shopifyClient)]; the other fields are
    services of the JavaScript runtime and of zod. *)
Class Host := {
  execute : tool → value → result value;
  JSON_stringify : value → value;
  number_to_string : float → string;
  is_email : string → bool;
  stack_trace : string → string;
}.

(** ** Request state

    [calls] logs every executor invocation in order; [statusCode] and
    [sent] are the Express response object ([res.status], [res.json]). *)
Record state := {
  calls : list (tool * value);
  statusCode : nat;
  sent : option value;
}.

Definition initial : state :=
  {| calls := []; statusCode := 200; sent := None |}.

Definition M (A : Type) : Type := state → state * result A.

Definition ret {A} (a : A) : M A := λ st, (st, Ok a).

Definition bind {A B} (m : M A) (k : A → M B) : M B :=
  λ st, match m st with
        | (st', Ok a) => k a st'
        | (st', Throw e) => (st', Throw e)
        end.

Definition throw {A} (e : thrown) : M A := λ st, (st, Throw e).

(** [try { body } catch (error) { handler }] *)
Definition try_catch {A} (body : M A) (handler : thrown → M A) : M A :=
  λ st, match body st with
        | (st', Ok a) => (st', Ok a)
        | (st', Throw e) => handler e st'
        end.

#[global] Instance M_ret : MRet M := @ret.
#[global] Instance M_bind : MBind M := λ A B k m, bind m k.

Section Runtime.
Context `{Host}.

(** An engine-raised [TypeError]. *)
Definition type_error (message : string) : thrown :=
  JsError message (stack_trace message).

(** [await <tool>.execute(args)] *)
Definition exec (t : tool) (args : value) : M value :=
  λ st, ({| calls := (calls st ++ [(t, args)])%list;
            statusCode := statusCode st;
            sent := sent st |}, execute t args).

(** [res.status(code)] *)
Definition status (code : nat) : M unit :=
  λ st, ({| calls := calls st; statusCode := code; sent := sent st |}, Ok ()).

(** [res.json(body)]: a second send on the same response throws. *)
Definition json (body : value) : M unit :=
  λ st, match sent st with
        | Some _ =>
            (st, Throw (type_error
               "Cannot set headers after they are sent to the client"))
        | None =>
            ({| calls := calls st; statusCode := statusCode st;
                sent := Some body |}, Ok ())
        end.

(** [error.k] on a caught value: a [TypeError] on [null] and
    [undefined]. *)
Definition thrown_prop (k : string) (e : thrown) : M value :=
  match e with
  | JsError message stack =>
      ret (if bool_decide (k = "message") then VStr message
           else if bool_decide (k = "stack") then VStr stack
           else VUndef)
  | Raised VUndef =>
      throw (type_error
        ("Cannot read properties of undefined (reading '" ++ k ++ "')"))
  | Raised VNull =>
      throw (type_error
        ("Cannot read properties of null (reading '" ++ k ++ "')"))
  | Raised v => ret (get k v)
  end.

End Runtime.

(** ** Argument schemas (zod)

    The constructors used by the [mcpServer.tool] registrations. *)

Inductive string_check :=
| Min (n : nat)
| Email
| Regex_digits (message : string).

Inductive schema :=
| ZString (checks : list string_check)
| ZNumber
| ZBoolean
| ZEnum (options : list string)
| ZArray (element : schema)
| ZObject (shape : list (string * schema))
| ZOptional (inner : schema)
| ZDefault (inner : schema) (d : value).

Inductive segment := Key (k : string) | Index (i : nat).

Inductive issue_code :=
| invalid_type | too_small | invalid_string | invalid_enum_value.

Record issue := {
  issue_path : list segment;
  code : issue_code;
  custom_message : option string;
}.

Inductive parsed :=
| Valid (v : value)
| Invalid (issues : list issue).

Definition issues_of (p : parsed) : list issue :=
  match p with Valid _ => [] | Invalid issues => issues end.

Definition fail (path : list segment) (c : issue_code) : parsed :=
  Invalid [{| issue_path := path; code := c; custom_message := None |}].

(** [/^\d+$/.test(s)]: one or more characters, all of them in [0-9];
    without the [m] flag [$] matches at the end of the input only. *)
Definition is_digit (c : Ascii.ascii) : bool :=
  let n := Ascii.nat_of_ascii c in (48 <=? n)%nat && (n <=? 57)%nat.

Fixpoint all_digits (s : string) : bool :=
  match s with
  | EmptyString => true
  | String c rest => is_digit c && all_digits rest
  end.

Definition numeric_string (s : string) : bool :=
  negb (bool_decide (s = "")) && all_digits s.

(** The elements of an array, each parsed under its index; all issues
    are collected. *)
Fixpoint parse_items (parse_item : list segment → value → parsed)
    (path : list segment) (i : nat) (items : list value) : parsed :=
  match items with
  | [] => Valid (VArr [])
  | x :: rest =>
      match parse_item (path ++ [Index i])%list x,
            parse_items parse_item path (S i) rest with
      | Valid v, Valid (VArr vs) => Valid (VArr (v :: vs))
      | px, prest => Invalid (issues_of px ++ issues_of prest)%list
      end
  end.

(** One key of an object shape joined to the keys after it: the parsed
    value is stored when it is not [undefined] or when the key is in the
    input. *)
Definition merge_pair (k : string) (present : bool)
    (pk prest : parsed) : parsed :=
  match pk, prest with
  | Valid v, Valid (VObj fields) =>
      Valid (VObj (match v with
                   | VUndef => if present then <[k := v]> fields else fields
                   | _ => <[k := v]> fields
                   end))
  | _, _ => Invalid (issues_of pk ++ issues_of prest)%list
  end.

Section Zod.
Context `{Host}.

Definition check_string (path : list segment) (s : string)
    (c : string_check) : list issue :=
  match c with
  | Min n =>
      if (String.length s <? n)%nat
      then [{| issue_path := path; code := too_small;
               custom_message := None |}]
      else []
  | Email =>
      if is_email s then []
      else [{| issue_path := path; code := invalid_string;
               custom_message := None |}]
  | Regex_digits message =>
      if numeric_string s then []
      else [{| issue_path := path; code := invalid_string;
               custom_message := Some message |}]
  end.

(** [schema.safeParse(v)]: unknown keys of an object are stripped (zod's
    default for [z.object]), [optional] lets [undefined] through and
    [default] replaces it before the inner schema runs. *)
Fixpoint parse (s : schema) (path : list segment) (v : value) : parsed :=
  match s with
  | ZString checks =>
      match v with
      | VStr x =>
          match concat (map (check_string path x) checks) with
          | [] => Valid v
          | issues => Invalid issues
          end
      | _ => fail path invalid_type
      end
  | ZNumber =>
      match v with
      | VNum n => if PrimFloat.is_nan n then fail path invalid_type else Valid v
      | _ => fail path invalid_type
      end
  | ZBoolean =>
      match v with
      | VBool _ => Valid v
      | _ => fail path invalid_type
      end
  | ZEnum options =>
      match v with
      | VStr x =>
          if bool_decide (x ∈ options) then Valid v
          else fail path invalid_enum_value
      | _ => fail path invalid_type
      end
  | ZArray element =>
      match v with
      | VArr items => parse_items (parse element) path 0 items
      | _ => fail path invalid_type
      end
  | ZObject shape =>
      match v with
      | VObj _ =>
          (fix parse_shape (shape : list (string * schema)) : parsed :=
             match shape with
             | [] => Valid (VObj ∅)
             | (k, sk) :: rest =>
                 merge_pair k (has_own k v)
                   (parse sk (path ++ [Key k])%list (get k v))
                   (parse_shape rest)
             end) shape
      | _ => fail path invalid_type
      end
  | ZOptional inner =>
      match v with
      | VUndef => Valid VUndef
      | _ => parse inner path v
      end
  | ZDefault inner d =>
      parse inner path (match v with VUndef => d | _ => v end)
  end.

End Zod.

(** ** The schemas passed to [mcpServer.tool] *)

Definition shape_of (t : tool) : list (string * schema) :=
  match t with
  | GetProducts =>
      [("searchTitle", ZOptional (ZString []));
       ("limit", ZDefault ZNumber (VNum 10))]
  | GetProductById =>
      [("productId", ZString [Min 1])]
  | GetCustomers =>
      [("searchQuery", ZOptional (ZString []));
       ("limit", ZDefault ZNumber (VNum 10))]
  | GetOrders =>
      [("status", ZDefault (ZEnum ["any"; "open"; "closed"; "cancelled"])
                    (VStr "any"));
       ("limit", ZDefault ZNumber (VNum 10))]
  | GetOrderById =>
      [("orderId", ZString [Min 1])]
  | UpdateOrder =>
      [("id", ZString [Min 1]);
       ("tags", ZOptional (ZArray (ZString [])));
       ("email", ZOptional (ZString [Email]));
       ("note", ZOptional (ZString []));
       ("customAttributes", ZOptional (ZArray (ZObject
          [("key", ZString []);
           ("value", ZString [])])));
       ("metafields", ZOptional (ZArray (ZObject
          [("id", ZOptional (ZString []));
           ("namespace", ZOptional (ZString []));
           ("key", ZOptional (ZString []));
           ("value", ZString []);
           ("type", ZOptional (ZString []))])));
       ("shippingAddress", ZOptional (ZObject
          [("address1", ZOptional (ZString []));
           ("address2", ZOptional (ZString []));
           ("city", ZOptional (ZString []));
           ("company", ZOptional (ZString []));
           ("country", ZOptional (ZString []));
           ("firstName", ZOptional (ZString []));
           ("lastName", ZOptional (ZString []));
           ("phone", ZOptional (ZString []));
           ("province", ZOptional (ZString []));
           ("zip", ZOptional (ZString []))]))]
  | GetCustomerOrders =>
      [("customerId", ZString [Regex_digits "Customer ID must be numeric"]);
       ("limit", ZDefault ZNumber (VNum 10))]
  | UpdateCustomer =>
      [("id", ZString [Regex_digits "Customer ID must be numeric"]);
       ("firstName", ZOptional (ZString []));
       ("lastName", ZOptional (ZString []));
       ("email", ZOptional (ZString [Email]));
       ("phone", ZOptional (ZString []));
       ("tags", ZOptional (ZArray (ZString [])));
       ("note", ZOptional (ZString []));
       ("taxExempt", ZOptional ZBoolean);
       ("metafields", ZOptional (ZArray (ZObject
          [("id", ZOptional (ZString []));
           ("namespace", ZOptional (ZString []));
           ("key", ZOptional (ZString []));
           ("value", ZString []);
           ("type", ZOptional (ZString []))])))]
  | CreateProduct =>
      [("title", ZString [Min 1]);
       ("descriptionHtml", ZOptional (ZString []));
       ("vendor", ZOptional (ZString []));
       ("productType", ZOptional (ZString []));
       ("tags", ZOptional (ZArray (ZString [])));
       ("status", ZDefault (ZEnum ["ACTIVE"; "DRAFT"; "ARCHIVED"])
                    (VStr "DRAFT"))]
  end.

(** The top-level fields a schema declares, and those it declares with a
    default. *)
Definition declared (t : tool) : list string := (shape_of t).*1.

Definition declared_default (t : tool) (f : string) : option value :=
  match list_find (λ p, p.1 = f) (shape_of t) with
  | Some (_, (_, ZDefault _ d)) => Some d
  | _ => None
  end.

(** ** The registry of the HTTP front end *)

Section Registry.
Context `{Host}.

(** [{ content: [{ type: "text", text: JSON.stringify(result) }] }] *)
Definition text_content (r : value) : value :=
  object [("content",
           VArr [object [("type", VStr "text");
                         ("text", JSON_stringify r)]])].

(** What a handler hands to [execute]: the [processedArgs] literal of
    the four handlers that build one, the received [args] in the other
    five. *)
Definition processedArgs (t : tool) (args : value) : value :=
  match t with
  | GetProducts =>
      object [("searchTitle", opt_get "searchTitle" args);
              ("limit", nullish (opt_get "limit" args) (VNum 10))]
  | GetCustomers =>
      object [("searchQuery", opt_get "searchQuery" args);
              ("limit", nullish (opt_get "limit" args) (VNum 10))]
  | GetOrders =>
      object [("status", nullish (opt_get "status" args) (VStr "any"));
              ("limit", nullish (opt_get "limit" args) (VNum 10))]
  | GetCustomerOrders =>
      object [("customerId", opt_get "customerId" args);
              ("limit", nullish (opt_get "limit" args) (VNum 10))]
  | GetProductById | GetOrderById | UpdateOrder | UpdateCustomer
  | CreateProduct => args
  end.

(** The handler registered for [t] with [registerTool]. *)
Definition handler (t : tool) (args : value) : M value :=
  r ← exec t (processedArgs t args);
  mret (text_content r).

(** What the protocol layer makes of [params.arguments] before the
    schema of the tool sees it: the request schema takes an object or
    no [arguments] at all, and turns down an array, [null] or a
    primitive with an issue at [params.arguments]; absent arguments
    are handled as [{}]. *)
Definition request_arguments (raw : value) : list issue + value :=
  match raw with
  | VObj _ => inr raw
  | VUndef => inr (object [])
  | _ =>
      inl [{| issue_path := [Key "params"; Key "arguments"];
              code := invalid_type; custom_message := None |}]
  end.

(** The callback registered for [t] with [mcpServer.tool], behind the
    schema: the protocol layer parses the arguments against
    [z.object(shape)] and reaches the callback with the parsed data, or
    rejects the call with the issues. *)
Definition mcp_call (t : tool) (raw : value) : M (list issue + value) :=
  match request_arguments raw with
  | inl issues => mret (inl issues)
  | inr arguments =>
      match parse (ZObject (shape_of t)) [] arguments with
      | Invalid issues => mret (inl issues)
      | Valid args =>
          r ← exec t args;
          mret (inr (text_content r))
      end
  end.

(** [toolHandlers[name] = handler]: an existing key keeps its place. *)
Fixpoint registerTool (name : string) (h : value → M value)
    (registry : list (string * (value → M value)))
    : list (string * (value → M value)) :=
  match registry with
  | [] => [(name, h)]
  | (k, h') :: rest =>
      if bool_decide (k = name) then (k, h) :: rest
      else (k, h') :: registerTool name h rest
  end.

Definition toolHandlers : list (string * (value → M value)) :=
  foldl (λ registry t, registerTool (tool_name t) (handler t) registry)
        [] all_tools.

Fixpoint own (k : string) (registry : list (string * (value → M value)))
    : option (value → M value) :=
  match registry with
  | [] => None
  | (k', h) :: rest => if bool_decide (k' = k) then Some h else own k rest
  end.

End Registry.

(** ** Property lookup on [toolHandlers]

    [toolHandlers] is created by the literal [{}], so [toolHandlers[k]]
    falls back on [Object.prototype] when the registry has no own
    property [k]. *)

Inductive builtin :=
| B_constructor | B_toString | B_toLocaleString | B_valueOf
| B_hasOwnProperty | B_isPrototypeOf | B_propertyIsEnumerable
| B_defineGetter | B_defineSetter | B_lookupGetter | B_lookupSetter.

Inductive member :=
| Own (h : value → M value)
| Inherited (b : builtin)
| Proto
| Absent.

Definition object_prototype : list (string * member) :=
  [("constructor", Inherited B_constructor);
   ("toString", Inherited B_toString);
   ("toLocaleString", Inherited B_toLocaleString);
   ("valueOf", Inherited B_valueOf);
   ("hasOwnProperty", Inherited B_hasOwnProperty);
   ("isPrototypeOf", Inherited B_isPrototypeOf);
   ("propertyIsEnumerable", Inherited B_propertyIsEnumerable);
   ("__defineGetter__", Inherited B_defineGetter);
   ("__defineSetter__", Inherited B_defineSetter);
   ("__lookupGetter__", Inherited B_lookupGetter);
   ("__lookupSetter__", Inherited B_lookupSetter);
   ("__proto__", Proto)].

Definition inherited (k : string) : member :=
  match list_find (λ p, p.1 = k) object_prototype with
  | Some (_, (_, m)) => m
  | None => Absent
  end.

Section Route.
Context `{Host}.

(** ToString, as applied to a computed property key and inside a
    template literal; [None] is the [TypeError] of ToPrimitive.  A
    parsed JSON object converts with the inherited [toString], unless an
    own [toString] property (never callable) hides it; an array joins
    its elements. *)
Fixpoint to_string (v : value) : option string :=
  match v with
  | VUndef => Some "undefined"
  | VNull => Some "null"
  | VBool true => Some "true"
  | VBool false => Some "false"
  | VNum n => Some (number_to_string n)
  | VStr s => Some s
  | VArr items =>
      String.concat "," <$>
        (fix join (items : list value) : option (list string) :=
           match items with
           | [] => Some []
           | x :: rest =>
               match match x with
                     | VUndef | VNull => Some ""
                     | _ => to_string x
                     end, join rest with
               | Some s, Some ss => Some (s :: ss)
               | _, _ => None
               end
           end) items
  | VObj fields =>
      if bool_decide (is_Some (fields !! "toString")) then None
      else Some "[object Object]"
  end.

Definition to_key (v : value) : M string :=
  match to_string v with
  | Some s => mret s
  | None => throw (type_error "Cannot convert object to primitive value")
  end.

(** [toolHandlers[key]] *)
Definition lookup_handler (key : string) : member :=
  match own key toolHandlers with
  | Some h => Own h
  | None => inherited key
  end.

(** [!toolHandlers[name]]: a function and [Object.prototype] are
    truthy. *)
Definition missing (m : member) : bool :=
  match m with Absent => true | _ => false end.

(** [toolHandlers[name](toolArgs)] with [this = toolHandlers], for an
    object or array [toolArgs].  The result is recorded as [res.json]
    serializes it: [valueOf] returns [toolHandlers] itself, whose
    function-valued properties are left out, and a function returned by
    [__lookupGetter__] serializes like [undefined]. *)
Definition invoke (m : member) (toolArgs : value) : M value :=
  match m with
  | Own h => h toolArgs
  | Inherited B_constructor => mret toolArgs
  | Inherited B_toString | Inherited B_toLocaleString =>
      mret (VStr "[object Object]")
  | Inherited B_valueOf => mret (object [])
  | Inherited B_hasOwnProperty | Inherited B_propertyIsEnumerable =>
      key ← to_key toolArgs;
      mret (VBool (bool_decide (is_Some (own key toolHandlers))))
  | Inherited B_isPrototypeOf => mret (VBool false)
  | Inherited B_defineGetter =>
      throw (type_error
               "Object.prototype.__defineGetter__: Expecting function")
  | Inherited B_defineSetter =>
      throw (type_error
               "Object.prototype.__defineSetter__: Expecting function")
  | Inherited B_lookupGetter | Inherited B_lookupSetter =>
      _ ← to_key toolArgs;
      mret VUndef
  | Proto | Absent =>
      throw (type_error "toolHandlers[name] is not a function")
  end.

(** [const toolArgs = args && typeof args === 'object' ? args : {}] *)
Definition toolArgs_of (args : value) : value :=
  if truthy args && typeof_object args then args else object [].

(** [Object.keys(toolHandlers).map(name => ({ name, description }))] *)
Definition tool_list : value :=
  VArr (map (λ name,
               object [("name", VStr name);
                       ("description",
                        VStr ("Shopify " ++ name ++ " tool"))])
            (toolHandlers.*1)).

(** The [catch] around the handler call. *)
Definition execution_failed (error : thrown) : M unit :=
  status 500;;
  message ← thrown_prop "message" error;
  stack ← thrown_prop "stack" error;
  json (object [("error", or_else message (VStr "Tool execution failed"));
                ("details", stack)]).

(** The [tools/call] branch, from the destructured [name] and
    [arguments] on. *)
Definition dispatch (name args : value) : M unit :=
  if negb (truthy name) then
    status 400;;
    json (object [("error", VStr "Tool name is required")])
  else
    key ← to_key name;
    if missing (lookup_handler key) then
      status 404;;
      text ← to_key name;
      json (object [("error", VStr ("Tool '" ++ text ++ "' not found"))])
    else
      let toolArgs := toolArgs_of args in
      try_catch
        (key ← to_key name;
         r ← invoke (lookup_handler key) toolArgs;
         json r)
        execution_failed.

(** The outermost [catch]. *)
Definition request_failed (error : thrown) : M unit :=
  status 500;;
  message ← thrown_prop "message" error;
  json (object [("error", message)]).

(** [app.post('/mcp', async (req, res) => ...)] on [req.body]. *)
Definition post_mcp (body : value) : M unit :=
  try_catch
    (match body with
     | VUndef =>
         throw (type_error
           "Cannot destructure property 'method' of 'req.body' as it is undefined.")
     | VNull =>
         throw (type_error
           "Cannot destructure property 'method' of 'req.body' as it is null.")
     | _ =>
         let method := get "method" body in
         let params := get "params" body in
         if is_string "tools/list" method then
           json (object [("tools", tool_list)])
         else if is_string "tools/call" method then
           let params := or_else params (object []) in
           dispatch (get "name" params) (get "arguments" params)
         else
           status 400;;
           json (object [("error", VStr "Unknown method")])
     end)
    request_failed.

(** The request [{ method: "tools/call", params: { name, arguments } }]. *)
Definition tools_call (name args : value) : value :=
  object [("method", VStr "tools/call");
          ("params", object [("name", name); ("arguments", args)])].

End Route.

(** ** Start-up

    The module body before the registrations: the two credentials come
    from the command line ([minimist]'s [argv]) or from [process.env],
    the port from [process.env] or 3000, and the process exits with
    code 1 when a credential is missing.  [process.env] maps names to
    strings. *)

Record config := {
  SHOPIFY_ACCESS_TOKEN : value;
  MYSHOPIFY_DOMAIN : value;
  PORT : value;
  endpoint : string;
}.

Inductive startup :=
| Exit (code : nat) (message : string)
| Crash (e : thrown)
| Ready (c : config).

(** [process.env.NAME] *)
Definition env_var (env : gmap string string) (k : string) : value :=
  from_option VStr VUndef (env !! k).

Section Startup.
Context `{Host}.

Definition start (argv : value) (env : gmap string string) : startup :=
  let token :=
    or_else (get "accessToken" argv) (env_var env "SHOPIFY_ACCESS_TOKEN") in
  let domain :=
    or_else (get "domain" argv) (env_var env "MYSHOPIFY_DOMAIN") in
  let port := or_else (env_var env "PORT") (VNum 3000) in
  if negb (truthy token) then
    Exit 1 "Error: SHOPIFY_ACCESS_TOKEN is required."
  else if negb (truthy domain) then
    Exit 1 "Error: MYSHOPIFY_DOMAIN is required."
  else
    match to_string domain with
    | None => Crash (type_error "Cannot convert object to primitive value")
    | Some d =>
        Ready {| SHOPIFY_ACCESS_TOKEN := token;
                 MYSHOPIFY_DOMAIN := domain;
                 PORT := port;
                 endpoint :=
                   "https://" ++ d ++ "/admin/api/2023-07/graphql.json" |}
    end.

End Startup.

(** A schema whose object shapes, at every depth, name each key once,
    as the keys of an object literal do. *)
Fixpoint distinct_keys (s : schema) : bool :=
  match s with
  | ZArray element => distinct_keys element
  | ZObject shape =>
      bool_decide (NoDup shape.*1)
      && (fix all (shape : list (string * schema)) : bool :=
            match shape with
            | [] => true
            | (_, sk) :: rest => distinct_keys sk && all rest
            end) shape
  | ZOptional inner | ZDefault inner _ => distinct_keys inner
  | _ => true
  end.

(** ** Test doubles for the tool units

    [echo_host]: every executor returns the arguments it was given.
    [failing_host]: every executor rejects with an [Error]. *)

Definition echo_host : Host := {|
  execute := λ _ args, Ok args;
  JSON_stringify := λ _, VStr "{}";
  number_to_string := λ _, "0";
  is_email := λ _, true;
  stack_trace := λ message, "TypeError: " ++ message;
|}.

Definition failing_host : Host := {|
  execute := λ _ _, Throw (JsError "Shopify API error"
                                   "Error: Shopify API error");
  JSON_stringify := λ _, VStr "{}";
  number_to_string := λ _, "0";
  is_email := λ _, true;
  stack_trace := λ message, "TypeError: " ++ message;
|}.

(** [strict_host]: as [echo_host], with ["a@b.com"] the only string the
    email test takes.  [raising_host v]: every executor rejects with the
    value [v]. *)

Definition strict_host : Host := {|
  execute := λ _ args, Ok args;
  JSON_stringify := λ _, VStr "{}";
  number_to_string := λ _, "0";
  is_email := λ s, bool_decide (s = "a@b.com");
  stack_trace := λ message, "TypeError: " ++ message;
|}.

Definition raising_host (v : value) : Host := {|
  execute := λ _ _, Throw (Raised v);
  JSON_stringify := λ _, VStr "{}";
  number_to_string := λ _, "0";
  is_email := λ _, true;
  stack_trace := λ message, "TypeError: " ++ message;
|}.

(** The response of a finished request: status code and body. *)
Definition response (st : state) : nat * option value :=
  (statusCode st, sent st).

(** The smallest argument object the schema of each tool accepts. *)
Definition min_args (t : tool) : value :=
  match t with
  | GetProducts | GetCustomers | GetOrders => object []
  | GetProductById => object [("productId", VStr "1")]
  | GetOrderById => object [("orderId", VStr "1")]
  | UpdateOrder | UpdateCustomer => object [("id", VStr "1")]
  | GetCustomerOrders => object [("customerId", VStr "1")]
  | CreateProduct => object [("title", VStr "1")]
  end.

(** ** Vocabulary of the properties *)

Section Vocabulary.
Context `{Host}.

(** The route finished without an exception leaving it, and the
    response has gone out. *)
Definition responded (r : state * result unit) : Prop :=
  r.2 = Ok () ∧ is_Some (sent r.1).

(** The keys of an object shape, parsed in order and merged; [parse]
    on [ZObject] is this fold. *)
Definition parse_fields (shape : list (string * schema))
    (path : list segment) (v : value) : parsed :=
  foldr (λ p rest,
           merge_pair p.1 (has_own p.1 v)
             (parse p.2 (path ++ [Key p.1])%list (get p.1 v)) rest)
        (Valid (VObj ∅)) shape.

(** The tools whose HTTP handler builds a [processedArgs] literal. *)
Definition builds_processedArgs : list tool :=
  [GetProducts; GetCustomers; GetOrders; GetCustomerOrders].

(** Every own property of [a] is a field the schema of [t] declares. *)
Definition only_declared (t : tool) (a : value) : Prop :=
  ∀ k, has_own k a = true → k ∈ declared t.

(** The fields a schema neither marks optional nor gives a default. *)
Definition accepts_undefined (s : schema) : bool :=
  match s with
  | ZOptional _ | ZDefault _ _ => true
  | _ => false
  end.

Definition required_fields (t : tool) : list string :=
  (List.filter (λ p, negb (accepts_undefined p.2)) (shape_of t)).*1.

(** On both front ends, a field that [raw] omits reads, in what the
    executor receives, as the default the schema of [t] declares for
    it, and as [undefined] when the schema declares none: the two
    front ends default the same fields, to the same values. *)
Definition same_defaults (t : tool) (raw : value) : Prop :=
  ∀ f, get f raw = VUndef →
    get f (processedArgs t (toolArgs_of raw))
    = default VUndef (declared_default t f)
    ∧ ∀ c, c ∈ calls (mcp_call t raw initial).1 →
        get f c.2 = default VUndef (declared_default t f).

(** Every declared field of [t] other than [skip] passes its own
    schema. *)
Definition is_valid (p : parsed) : bool :=
  match p with Valid _ => true | Invalid _ => false end.

Definition fields_valid_except (skip : string) (t : tool) (raw : value)
    : bool :=
  forallb (λ p, bool_decide (p.1 = skip)
                || is_valid (parse p.2 [Key p.1] (get p.1 raw)))
          (shape_of t).

(** A front end requires [f] when it turns down every call that omits
    [f] without running the executor. *)
Definition required_by_schema (t : tool) (f : string) : Prop :=
  ∀ raw, get f raw = VUndef → calls (mcp_call t raw initial).1 = [].

Definition required_by_handler (t : tool) (f : string) : Prop :=
  ∀ raw, get f raw = VUndef →
    calls (handler t (toolArgs_of raw) initial).1 = [].

Definition same_required (t : tool) : Prop :=
  ∀ f, required_by_schema t f ↔ required_by_handler t f.

Definition front_ends_agree (t : tool) (raw : value) : Prop :=
  same_defaults t raw ∧ same_required t.

End Vocabulary.

(** * Properties *)

Section Properties.
Context `{Host}.

Lemma post_mcp_tools_call name args :
  post_mcp (tools_call name args)
  = try_catch (dispatch name args) request_failed.
Proof. reflexivity. Qed.

(** *** The registry *)

Lemma toolHandlers_unfold :
  toolHandlers = map (λ t, (tool_name t, handler t)) all_tools.
Proof. reflexivity. Qed.

Lemma own_registered t : own (tool_name t) toolHandlers = Some (handler t).
Proof. destruct t; reflexivity. Qed.

Lemma own_inv k h :
  own k toolHandlers = Some h → ∃ t, k = tool_name t ∧ h = handler t.
Proof.
  rewrite toolHandlers_unfold. unfold all_tools. cbn [map own].
  repeat case_bool_decide; try discriminate;
    intros [= <-]; subst k; eexists; split; reflexivity.
Qed.

Lemma inherited_not_own k h : inherited k ≠ Own h.
Proof.
  unfold inherited, object_prototype. cbn [list_find fst].
  repeat (case_decide; [cbn; discriminate |]). cbn. discriminate.
Qed.

Lemma lookup_registered t :
  lookup_handler (tool_name t) = Own (handler t).
Proof. unfold lookup_handler. by rewrite own_registered. Qed.

Lemma lookup_own_inv key h :
  lookup_handler key = Own h → ∃ t, h = handler t.
Proof.
  unfold lookup_handler.
  destruct (own key toolHandlers) as [h'|] eqn:E.
  - intros [= <-]. apply own_inv in E as (t & _ & ->). by exists t.
  - intros E'. by apply inherited_not_own in E'.
Qed.

Lemma tool_name_truthy t : truthy (VStr (tool_name t)) = true.
Proof. by destruct t. Qed.

(** *** Running the route *)

Lemma dispatch_falsy name args st :
  truthy name = false →
  dispatch name args st
  = (status 400;;
     json (object [("error", VStr "Tool name is required")])) st.
Proof. intros Hn. unfold dispatch. by rewrite Hn. Qed.

Lemma dispatch_key name key args st :
  truthy name = true →
  to_string name = Some key →
  dispatch name args st
  = (if missing (lookup_handler key) then
       status 404;;
       json (object [("error", VStr ("Tool '" ++ key ++ "' not found"))])
     else
       try_catch
         (r ← invoke (lookup_handler key) (toolArgs_of args);
          json r)
         execution_failed) st.
Proof.
  intros Hn Hk. unfold dispatch, to_key. rewrite Hn, Hk. cbn [negb].
  unfold mbind, M_bind, bind, mret, M_ret, ret.
  destruct (missing (lookup_handler key)); [| unfold try_catch];
    by rewrite ?Hk.
Qed.

Lemma dispatch_no_key name args st :
  truthy name = true →
  to_string name = None →
  dispatch name args st
  = (st, Throw (type_error "Cannot convert object to primitive value")).
Proof.
  intros Hn Hk. unfold dispatch, to_key. by rewrite Hn, Hk.
Qed.

Lemma handler_run t args st :
  handler t args st
  = match execute t (processedArgs t args) with
    | Ok r =>
        ({| calls := (calls st ++ [(t, processedArgs t args)])%list;
            statusCode := statusCode st; sent := sent st |},
         Ok (text_content r))
    | Throw e =>
        ({| calls := (calls st ++ [(t, processedArgs t args)])%list;
            statusCode := statusCode st; sent := sent st |},
         Throw e)
    end.
Proof.
  unfold handler, mbind, M_bind, bind, exec.
  by destruct (execute t (processedArgs t args)).
Qed.

Lemma truthy_or_else a b : truthy b = true → truthy (or_else a b) = true.
Proof. intros Hb. unfold or_else. by destruct (truthy a) eqn:E. Qed.

(** The failure path of a call, whatever was thrown: status 500 and a
    body whose [error] is set. *)
Lemma failure_run e log :
  ∃ body,
    try_catch (try_catch (throw e) execution_failed) request_failed
      {| calls := log; statusCode := 200; sent := None |}
    = ({| calls := log; statusCode := 500; sent := Some body |}, Ok ())
    ∧ truthy (get "error" body) = true
    ∧ ∀ message stack, e = JsError message stack →
        body = object
                 [("error",
                   or_else (VStr message) (VStr "Tool execution failed"));
                  ("details", VStr stack)].
Proof.
  destruct e as [message stack | v].
  - eexists. split; [reflexivity |]. split.
    + by apply truthy_or_else.
    + by intros ? ? [= <- <-].
  - destruct v; (eexists; split; [reflexivity |]; split;
      [first [reflexivity | by apply truthy_or_else] | intros; discriminate]).
Qed.

Lemma own_run name key t args :
  truthy name = true →
  to_string name = Some key →
  lookup_handler key = Own (handler t) →
  try_catch (dispatch name args) request_failed initial
  = match execute t (processedArgs t (toolArgs_of args)) with
    | Ok r =>
        ({| calls := [(t, processedArgs t (toolArgs_of args))];
            statusCode := 200; sent := Some (text_content r) |}, Ok ())
    | Throw e =>
        try_catch (try_catch (throw e) execution_failed) request_failed
          {| calls := [(t, processedArgs t (toolArgs_of args))];
             statusCode := 200; sent := None |}
    end.
Proof.
  intros Hn Hk Hl. unfold try_catch at 1.
  rewrite (dispatch_key name key) by done. rewrite Hl. cbn [missing invoke].
  unfold try_catch at 1. unfold mbind, M_bind, bind.
  rewrite handler_run.
  by destruct (execute t (processedArgs t (toolArgs_of args))).
Qed.

Lemma registered_run t args :
  post_mcp (tools_call (VStr (tool_name t)) args) initial
  = match execute t (processedArgs t (toolArgs_of args)) with
    | Ok r =>
        ({| calls := [(t, processedArgs t (toolArgs_of args))];
            statusCode := 200; sent := Some (text_content r) |}, Ok ())
    | Throw e =>
        try_catch (try_catch (throw e) execution_failed) request_failed
          {| calls := [(t, processedArgs t (toolArgs_of args))];
             statusCode := 200; sent := None |}
    end.
Proof.
  rewrite post_mcp_tools_call.
  apply (own_run _ (tool_name t));
    [apply tool_name_truthy | reflexivity | apply lookup_registered].
Qed.

Lemma registered_dispatch t args st :
  post_mcp (tools_call (VStr (tool_name t)) args) st
  = try_catch
      (try_catch (r ← handler t (toolArgs_of args); json r)
                 execution_failed)
      request_failed st.
Proof.
  rewrite post_mcp_tools_call. unfold try_catch at 1 3.
  rewrite (dispatch_key _ (tool_name t));
    [| apply tool_name_truthy | reflexivity].
  by rewrite lookup_registered.
Qed.

Lemma registered_calls t args :
  calls (post_mcp (tools_call (VStr (tool_name t)) args) initial).1
  = [(t, processedArgs t (toolArgs_of args))].
Proof.
  rewrite registered_run.
  destruct (execute t (processedArgs t (toolArgs_of args))) as [r|e];
    [reflexivity |].
  destruct (failure_run e [(t, processedArgs t (toolArgs_of args))])
    as (body & -> & _). reflexivity.
Qed.

Lemma dispatch_responds name args :
  responded (try_catch (dispatch name args) request_failed initial).
Proof.
  destruct (truthy name) eqn:Hn; cycle 1.
  { unfold try_catch. rewrite dispatch_falsy by done.
    split; [reflexivity | by eexists]. }
  destruct (to_string name) as [key|] eqn:Hk; cycle 1.
  { unfold try_catch. rewrite dispatch_no_key by done.
    split; [reflexivity | by eexists]. }
  destruct (lookup_handler key) as [h | b | |] eqn:Hl.
  - destruct (lookup_own_inv _ _ Hl) as [t ->].
    rewrite (own_run _ key t) by done.
    destruct (execute t (processedArgs t (toolArgs_of args))) as [r|e].
    + split; [reflexivity | by eexists].
    + destruct (failure_run e [(t, processedArgs t (toolArgs_of args))])
        as (body & -> & _). split; [reflexivity | by eexists].
  - unfold try_catch at 1. rewrite (dispatch_key name key) by done.
    rewrite Hl. cbn [missing].
    destruct b; cbn [invoke]; unfold to_key;
      try destruct (to_string (toolArgs_of args));
      (split; [reflexivity | by eexists]).
  - unfold try_catch at 1. rewrite (dispatch_key name key) by done.
    rewrite Hl. split; [reflexivity | by eexists].
  - unfold try_catch at 1. rewrite (dispatch_key name key) by done.
    rewrite Hl. split; [reflexivity | by eexists].
Qed.

Lemma post_mcp_responds body : responded (post_mcp body initial).
Proof.
  destruct body as [| | b | n | s | items | fields];
    try (split; [reflexivity | by eexists]).
  unfold post_mcp.
  destruct (is_string "tools/list" (get "method" (VObj fields))).
  { split; [reflexivity | by eexists]. }
  destruct (is_string "tools/call" (get "method" (VObj fields))).
  - apply dispatch_responds.
  - split; [reflexivity | by eexists].
Qed.

Lemma post_mcp_call body :
  get "method" body = VStr "tools/call" →
  post_mcp body
  = try_catch
      (dispatch (get "name" (or_else (get "params" body) (object [])))
                (get "arguments" (or_else (get "params" body) (object []))))
      request_failed.
Proof.
  destruct body; try discriminate. intros Hm.
  unfold post_mcp. by rewrite Hm.
Qed.

Lemma get_name_or_else params :
  get "name" params = VUndef →
  get "name" (or_else params (object [])) = VUndef.
Proof. intros Hp. unfold or_else. by destruct (truthy params). Qed.

(** A name that is neither registered nor a property of
    [Object.prototype] is answered 404, the name quoted in the message,
    and nothing is executed. *)
Lemma unknown_name_404 name args :
  name ≠ "" →
  lookup_handler name = Absent →
  post_mcp (tools_call (VStr name) args) initial
  = ({| calls := []; statusCode := 404;
        sent := Some (object
                 [("error", VStr ("Tool '" ++ name ++ "' not found"))]) |},
     Ok ()).
Proof.
  intros Hn Hl. rewrite post_mcp_tools_call.
  unfold try_catch. rewrite (dispatch_key _ name); [| | done].
  - by rewrite Hl.
  - cbn [truthy]. by rewrite bool_decide_eq_false_2.
Qed.

(** C6. A [tools/call] request whose [params] carry no [name] (whatever
    else they carry, [arguments] included, and also when [params] itself
    is absent) is answered 400 with the body
    [{ error: "Tool name is required" }], and no executor is invoked. *)
Theorem missing_name_is_bad_request body :
  get "method" body = VStr "tools/call" →
  get "name" (get "params" body) = VUndef →
  post_mcp body initial
  = ({| calls := []; statusCode := 400;
        sent := Some (object [("error", VStr "Tool name is required")]) |},
     Ok ()).
Proof.
  intros Hm Hn. rewrite post_mcp_call by done.
  unfold try_catch. rewrite dispatch_falsy.
  - reflexivity.
  - by rewrite get_name_or_else.
Qed.

(** C7 (failing input). For the name ["constructor"], which is not in
    the registry, the route does not answer 404: [toolHandlers[name]]
    finds [Object.prototype.constructor], calls it on the arguments and
    sends what it returns, the arguments themselves, with status 200. *)
Theorem constructor_is_not_404 args :
  own "constructor" toolHandlers = None
  ∧ post_mcp (tools_call (VStr "constructor") args) initial
    = ({| calls := []; statusCode := 200;
          sent := Some (toolArgs_of args) |}, Ok ()).
Proof. split; reflexivity. Qed.

(** C8. For every tool name, a [tools/call] with [arguments: null] ends
    in the same state (status, body and executor calls) as the same call
    with [arguments: {}]. *)
Theorem null_arguments_as_empty name :
  post_mcp (tools_call name VNull) initial
  = post_mcp (tools_call name (object [])) initial.
Proof.
  rewrite !post_mcp_tools_call. unfold dispatch.
  assert (toolArgs_of VNull = toolArgs_of (object [])) as -> by reflexivity.
  reflexivity.
Qed.

(** C9. A [tools/call] whose [name] is falsy, the empty string in
    particular, is answered 400 "Tool name is required", not 404. *)
Theorem falsy_name_is_bad_request name args :
  truthy name = false →
  post_mcp (tools_call name args) initial
  = ({| calls := []; statusCode := 400;
        sent := Some (object [("error", VStr "Tool name is required")]) |},
     Ok ()).
Proof.
  intros Hn. rewrite post_mcp_tools_call.
  unfold try_catch. by rewrite dispatch_falsy.
Qed.

(** C10. An array passed as [arguments] is kept by the coercion, not
    replaced by [{}], and the handler of a registered tool is run on the
    array itself: the executor is called on what the handler makes of
    it. *)
Theorem array_arguments_forwarded items t :
  toolArgs_of (VArr items) = VArr items
  ∧ toolArgs_of (VArr items) ≠ object []
  ∧ post_mcp (tools_call (VStr (tool_name t)) (VArr items)) initial
    = try_catch
        (try_catch (r ← handler t (VArr items); json r) execution_failed)
        request_failed initial
  ∧ calls (post_mcp (tools_call (VStr (tool_name t)) (VArr items))
             initial).1
    = [(t, processedArgs t (VArr items))].
Proof.
  split; [reflexivity |]. split; [discriminate |]. split.
  - apply registered_dispatch.
  - by rewrite registered_calls.
Qed.

(** C2. No request leaves the route through an exception: every body is
    answered.  When the handler of a registered tool throws, the answer
    is 500 with a body whose [error] is set, and for a thrown [Error]
    the body is [{ error: message || "Tool execution failed",
    details: stack }]. *)
Theorem executor_failure_is_reported :
  (∀ body, responded (post_mcp body initial))
  ∧ ∀ t args st e,
      handler t (toolArgs_of args) initial = (st, Throw e) →
      ∃ body,
        post_mcp (tools_call (VStr (tool_name t)) args) initial
        = ({| calls := calls st; statusCode := 500; sent := Some body |},
           Ok ())
        ∧ truthy (get "error" body) = true
        ∧ ∀ message stack, e = JsError message stack →
            body = object
                     [("error",
                       or_else (VStr message)
                               (VStr "Tool execution failed"));
                      ("details", VStr stack)].
Proof.
  split; [apply post_mcp_responds |].
  intros t args st e Hrun. rewrite registered_run.
  rewrite handler_run in Hrun.
  destruct (execute t (processedArgs t (toolArgs_of args))) as [r|e'];
    [discriminate |].
  injection Hrun as <- <-. cbn [calls app initial].
  apply failure_run.
Qed.

(** *** Schema parsing *)

Lemma parse_object_unfold shape path fields :
  parse (ZObject shape) path (VObj fields)
  = parse_fields shape path (VObj fields).
Proof.
  induction shape as [| [k sk] rest IH]; [reflexivity |].
  cbn [parse parse_fields foldr fst snd] in *. by rewrite IH.
Qed.

Lemma merge_pair_valid k present pk prest a :
  merge_pair k present pk prest = Valid a →
  ∃ v fs,
    pk = Valid v ∧ prest = Valid (VObj fs)
    ∧ a = VObj (match v with
                | VUndef => if present then <[k := v]> fs else fs
                | _ => <[k := v]> fs
                end).
Proof.
  unfold merge_pair. destruct pk as [v|]; [| discriminate].
  destruct prest as [[| | | | | | fs]|]; try discriminate.
  intros [= <-]. by exists v, fs.
Qed.

Lemma parse_fields_keys shape path v fs :
  parse_fields shape path v = Valid (VObj fs) →
  ∀ k, is_Some (fs !! k) → k ∈ shape.*1.
Proof.
  revert fs. induction shape as [| [k' sk] rest IH]; intros fs Hp k Hk.
  - injection Hp as <-. rewrite lookup_empty in Hk. by destruct Hk.
  - cbn [parse_fields foldr fst snd] in Hp.
    apply merge_pair_valid in Hp as (v' & fs' & _ & Hrest & [= ->]).
    cbn [fmap list_fmap fst]. apply elem_of_cons.
    destruct (decide (k = k')) as [-> | Hne]; [by left | right].
    apply (IH fs' Hrest).
    destruct v'; try destruct (has_own k' v); try done;
      by rewrite lookup_insert_ne in Hk.
Qed.

Lemma parse_fields_get shape path v a :
  NoDup shape.*1 →
  parse_fields shape path v = Valid a →
  ∀ k sk, (k, sk) ∈ shape →
    ∃ vk, parse sk (path ++ [Key k])%list (get k v) = Valid vk
          ∧ get k a = vk.
Proof.
  revert a. induction shape as [| [k' sk'] rest IH]; intros a Hnd Hp k sk Hin.
  - by apply elem_of_nil in Hin.
  - cbn [fmap list_fmap fst] in Hnd. apply NoDup_cons in Hnd as [Hk' Hnd].
    cbn [parse_fields foldr fst snd] in Hp.
    apply merge_pair_valid in Hp as (v' & fs' & Hv' & Hrest & ->).
    apply elem_of_cons in Hin as [[= -> ->] | Hin].
    + exists v'. split; [done |].
      assert (fs' !! k' = None) as Hnone.
      { apply eq_None_not_Some. intros Hs. apply Hk'.
        by apply (parse_fields_keys rest path v fs'). }
      cbn [get].
      destruct v'; try destruct (has_own k' v);
        by rewrite ?lookup_insert_eq, ?Hnone.
    + destruct (IH _ Hnd Hrest k sk Hin) as (vk & Hvk & Hget).
      exists vk. split; [done |].
      assert (k' ≠ k) as Hne.
      { intros ->. apply Hk'. apply list_elem_of_fmap. by exists (k, sk). }
      cbn [get] in *.
      destruct v'; try destruct (has_own k' v);
        by rewrite ?lookup_insert_ne.
Qed.

Lemma parse_valid_object t raw a :
  parse (ZObject (shape_of t)) [] raw = Valid a →
  ∃ fields, raw = VObj fields
            ∧ parse_fields (shape_of t) [] raw = Valid a.
Proof.
  destruct raw; try discriminate. rewrite parse_object_unfold. eauto.
Qed.

Lemma shape_NoDup t : NoDup (shape_of t).*1.
Proof. destruct t; by apply (bool_decide_unpack _). Qed.

Lemma mcp_call_run t raw st :
  mcp_call t raw st
  = match request_arguments raw with
    | inl issues => (st, Ok (inl issues))
    | inr arguments =>
        match parse (ZObject (shape_of t)) [] arguments with
        | Invalid issues => (st, Ok (inl issues))
        | Valid a =>
            ({| calls := (calls st ++ [(t, a)])%list;
                statusCode := statusCode st; sent := sent st |},
             match execute t a with
             | Ok r => Ok (inr (text_content r))
             | Throw e => Throw e
             end)
        end
    end.
Proof.
  unfold mcp_call. destruct (request_arguments raw) as [| o]; [reflexivity |].
  destruct (parse (ZObject (shape_of t)) [] o) as [a|]; [| reflexivity].
  unfold mbind, M_bind, bind, exec. by destruct (execute t a).
Qed.

Lemma request_arguments_inr raw o :
  request_arguments raw = inr o →
  (∀ k, get k o = get k raw)
  ∧ (raw = VUndef ∧ o = object [] ∨ ∃ fields, raw = VObj fields ∧ o = raw).
Proof.
  destruct raw; try discriminate; intros [= <-].
  - split; [| by left]. intros k. cbn [get]. unfold object. cbn [foldl get].
    by rewrite lookup_empty.
  - split; [done | right; by eexists].
Qed.

Lemma declared_default_in t f d :
  declared_default t f = Some d →
  ∃ inner, (f, ZDefault inner d) ∈ shape_of t
           ∧ ∀ path, parse inner path d = Valid d.
Proof.
  unfold declared_default.
  destruct t; cbn [shape_of list_find fst]; repeat case_decide;
    cbn; try discriminate; intros [= <-]; subst f;
    eexists; (split; [repeat constructor | reflexivity]).
Qed.

(** What the schema makes of a defaulted field the caller omitted. *)
Lemma schema_default t raw a f d :
  declared_default t f = Some d →
  get f raw = VUndef →
  parse (ZObject (shape_of t)) [] raw = Valid a →
  get f a = d.
Proof.
  intros Hd Hf Hp.
  apply declared_default_in in Hd as (inner & Hin & Hinner).
  apply parse_valid_object in Hp as (fields & -> & Hp).
  destruct (parse_fields_get _ _ _ _ (shape_NoDup t) Hp _ _ Hin)
    as (vk & Hvk & <-).
  rewrite Hf in Hvk. cbn [parse] in Hvk. rewrite Hinner in Hvk.
  by injection Hvk.
Qed.

Lemma opt_get_toolArgs f raw :
  get f raw = VUndef → opt_get f (toolArgs_of raw) = VUndef.
Proof.
  destruct raw; intros Hf; try done.
  - by destruct b.
  - unfold toolArgs_of. by destruct (truthy (VNum n) && typeof_object (VNum n)).
  - unfold toolArgs_of.
    by destruct (truthy (VStr s) && typeof_object (VStr s)).
Qed.

(** What a [processedArgs] handler makes of a defaulted field the
    caller omitted. *)
Lemma handler_default t raw f d :
  t ∈ builds_processedArgs →
  declared_default t f = Some d →
  get f raw = VUndef →
  get f (processedArgs t (toolArgs_of raw)) = d.
Proof.
  intros Ht Hd Hf. apply opt_get_toolArgs in Hf. revert Hd.
  unfold declared_default.
  destruct t;
    try (exfalso; revert Ht; by apply (bool_decide_unpack _));
    cbn [shape_of list_find fst]; repeat case_decide;
    cbn; try discriminate; intros [= <-]; subst f;
    unfold processedArgs; by rewrite Hf.
Qed.

Lemma limit_tools t :
  "limit" ∈ declared t →
  t ∈ builds_processedArgs ∧ declared_default t "limit" = Some (VNum 10).
Proof.
  destruct t; intros Hin;
    first [ split; [by apply (bool_decide_unpack _) | reflexivity]
          | exfalso; revert Hin; by apply (bool_decide_unpack _) ].
Qed.

Lemma object_keys_aux (props : list (string * value))
    (fields : gmap string value) (k : string) :
  is_Some (foldl (λ fs p, <[p.1 := p.2]> fs) fields props !! k) →
  k ∈ props.*1 ∨ is_Some (fields !! k).
Proof.
  revert fields. induction props as [| [k' v'] rest IH]; intros fields Hk.
  - by right.
  - cbn [foldl fst snd] in Hk. apply IH in Hk as [Hk | Hk].
    + left. cbn [fmap list_fmap fst]. by apply list_elem_of_further.
    + apply lookup_insert_is_Some in Hk as [<- | [_ Hk]].
      * left. cbn [fmap list_fmap fst]. apply list_elem_of_here.
      * by right.
Qed.

Lemma object_keys props k :
  has_own k (object props) = true → k ∈ props.*1.
Proof.
  unfold has_own, object. intros Hk. apply bool_decide_eq_true in Hk.
  apply object_keys_aux in Hk as [Hk | Hk]; [done |].
  rewrite lookup_empty in Hk. by destruct Hk.
Qed.

Lemma schema_only_declared t raw a :
  parse (ZObject (shape_of t)) [] raw = Valid a → only_declared t a.
Proof.
  intros Hp k Hk.
  apply parse_valid_object in Hp as (fields & -> & Hp).
  destruct a; try discriminate Hk.
  apply bool_decide_eq_true in Hk.
  by apply (parse_fields_keys _ _ _ _ Hp).
Qed.

Lemma mcp_call_calls t raw :
  calls (mcp_call t raw initial).1
  = match request_arguments raw with
    | inl _ => []
    | inr arguments =>
        match parse (ZObject (shape_of t)) [] arguments with
        | Valid a => [(t, a)]
        | Invalid _ => []
        end
    end.
Proof.
  rewrite mcp_call_run. destruct (request_arguments raw) as [| o]; [done |].
  by destruct (parse (ZObject (shape_of t)) [] o).
Qed.

(** What reaches the executor behind the schema is the parse of the
    request arguments. *)
Lemma mcp_call_in t raw c :
  c ∈ calls (mcp_call t raw initial).1 →
  ∃ o, request_arguments raw = inr o
       ∧ parse (ZObject (shape_of t)) [] o = Valid c.2 ∧ c.1 = t.
Proof.
  rewrite mcp_call_calls. destruct (request_arguments raw) as [| o];
    [by intros ?%elem_of_nil |].
  destruct (parse (ZObject (shape_of t)) [] o) as [a|] eqn:Hp;
    [| by intros ?%elem_of_nil].
  intros ->%list_elem_of_singleton. by exists o.
Qed.

Lemma mcp_call_object t (fields : gmap string value) :
  calls (mcp_call t (VObj fields) initial).1
  = match parse (ZObject (shape_of t)) [] (VObj fields) with
    | Valid a => [(t, a)]
    | Invalid _ => []
    end.
Proof. by rewrite mcp_call_calls. Qed.

(** C5 (amended). Behind the schema, and on the HTTP route for the four
    tools whose handler builds [processedArgs], the executor receives
    only fields the schema declares; the other five HTTP handlers hand
    the arguments they received to the executor unchanged. *)
Theorem undeclared_fields_by_front_end :
  (∀ t raw c, c ∈ calls (mcp_call t raw initial).1 →
     c.1 = t ∧ only_declared t c.2)
  ∧ (∀ t args c,
       t ∈ builds_processedArgs →
       c ∈ calls (post_mcp (tools_call (VStr (tool_name t)) args)
                    initial).1 →
       c.1 = t ∧ only_declared t c.2)
  ∧ (∀ t args,
       t ∉ builds_processedArgs →
       calls (post_mcp (tools_call (VStr (tool_name t)) args) initial).1
       = [(t, toolArgs_of args)]).
Proof.
  split; [| split].
  - intros t raw c (o & _ & Hp & Ht)%mcp_call_in. split; [done |].
    by apply (schema_only_declared t o).
  - intros t args c Ht. rewrite registered_calls.
    intros ->%list_elem_of_singleton. split; [done |].
    intros k Hk. cbn [snd] in Hk.
    destruct t; try (exfalso; revert Ht; by apply (bool_decide_unpack _));
      by apply object_keys in Hk.
  - intros t args Ht. rewrite registered_calls.
    destruct t; try reflexivity; exfalso; apply Ht;
      by apply (bool_decide_unpack _).
Qed.

Lemma numeric_id_rejected t k message rest raw s :
  shape_of t = (k, ZString [Regex_digits message]) :: rest →
  get k raw = VStr s →
  numeric_string s = false →
  ∃ issues, issues ≠ []
            ∧ mcp_call t raw initial = (initial, Ok (inl issues)).
Proof.
  intros Hshape Hk Hs. rewrite mcp_call_run.
  destruct raw; try discriminate. cbn [request_arguments].
  rewrite parse_object_unfold, Hshape.
  cbn [parse_fields foldr fst snd]. rewrite Hk.
  cbn [parse map concat check_string app]. rewrite Hs.
  eexists. split; [| reflexivity]. discriminate.
Qed.

Lemma numeric_id_accepted message s path :
  numeric_string s = true →
  parse (ZString [Regex_digits message]) path (VStr s) = Valid (VStr s).
Proof. intros Hs. cbn. by rewrite Hs. Qed.

(** C3 (amended). Behind the schema, [get-customer-orders] and
    [update-customer] turn down a non-numeric [customerId] / [id] such
    as ["abc"] with validation issues before the executor runs, and
    accept a numeric one such as ["12345"]; the HTTP route does not
    check the id and calls the executor with whatever string it gets. *)
Theorem numeric_id_checked_by_schema_only :
  (∀ raw s, get "customerId" raw = VStr s → numeric_string s = false →
     ∃ issues, issues ≠ []
       ∧ mcp_call GetCustomerOrders raw initial = (initial, Ok (inl issues)))
  ∧ (∀ raw s, get "id" raw = VStr s → numeric_string s = false →
       ∃ issues, issues ≠ []
         ∧ mcp_call UpdateCustomer raw initial = (initial, Ok (inl issues)))
  ∧ (∀ s, numeric_string s = true →
       calls (mcp_call GetCustomerOrders
                (object [("customerId", VStr s)]) initial).1
       = [(GetCustomerOrders,
           object [("customerId", VStr s); ("limit", VNum 10)])]
       ∧ calls (mcp_call UpdateCustomer
                  (object [("id", VStr s)]) initial).1
         = [(UpdateCustomer, object [("id", VStr s)])])
  ∧ (∀ s,
       calls (post_mcp (tools_call (VStr "get-customer-orders")
                          (object [("customerId", VStr s)])) initial).1
       = [(GetCustomerOrders,
           object [("customerId", VStr s); ("limit", VNum 10)])]
       ∧ calls (post_mcp (tools_call (VStr "update-customer")
                            (object [("id", VStr s)])) initial).1
         = [(UpdateCustomer, object [("id", VStr s)])]).
Proof.
  split; [| split; [| split]].
  - intros raw s. by eapply numeric_id_rejected.
  - intros raw s. by eapply numeric_id_rejected.
  - intros s Hs. split.
    + change (object [("customerId", VStr s)])
        with (VObj {["customerId" := VStr s]}).
      rewrite mcp_call_object, parse_object_unfold.
      cbn [shape_of parse_fields foldr fst snd].
      change (get "customerId" (VObj {["customerId" := VStr s]}))
        with (VStr s).
      by rewrite numeric_id_accepted.
    + change (object [("id", VStr s)]) with (VObj {["id" := VStr s]}).
      rewrite mcp_call_object, parse_object_unfold.
      cbn [shape_of parse_fields foldr fst snd].
      change (get "id" (VObj {["id" := VStr s]})) with (VStr s).
      by rewrite numeric_id_accepted.
  - intros s. split.
    + apply (registered_calls GetCustomerOrders).
    + apply (registered_calls UpdateCustomer).
Qed.

Lemma required_fields_in t f :
  f ∈ required_fields t →
  ∃ sk, (f, sk) ∈ shape_of t ∧ accepts_undefined sk = false.
Proof.
  unfold required_fields.
  intros ([k sk] & -> & Hin%list_elem_of_In%filter_In)%list_elem_of_fmap.
  destruct Hin as [Hin Hsk]. exists sk. split.
  - by apply list_elem_of_In.
  - by apply negb_true_iff in Hsk.
Qed.

Lemma parse_undefined sk path :
  accepts_undefined sk = false → ∃ issues, parse sk path VUndef = Invalid issues.
Proof. destruct sk; try discriminate; intros _; by eexists. Qed.

Lemma min_args_valid t :
  ∃ a, parse (ZObject (shape_of t)) [] (min_args t) = Valid a.
Proof. destruct t; eexists; vm_compute; reflexivity. Qed.

Lemma min_args_omits t f :
  f ∉ required_fields t → get f (min_args t) = VUndef.
Proof.
  intros Hf.
  assert (∀ k v, f ≠ k → get f (object [(k, v)]) = VUndef) as Hone.
  { intros k v Hne. unfold get, object. cbn [foldl fst snd].
    by rewrite lookup_insert_ne, lookup_empty. }
  assert (get f (object []) = VUndef) as Hnone.
  { unfold get, object. cbn [foldl]. by rewrite lookup_empty. }
  destruct t; cbn [min_args]; try exact Hnone;
    apply Hone; intros ->; apply Hf; by apply (bool_decide_unpack _).
Qed.

(** The HTTP handlers run the executor whatever the arguments. *)
Lemma handler_requires_nothing t f : ¬ required_by_handler t f.
Proof.
  intros Hreq. specialize (Hreq VUndef eq_refl).
  rewrite handler_run in Hreq.
  by destruct (execute t (processedArgs t (toolArgs_of VUndef))).
Qed.

(** The schema requires the fields that do not accept [undefined]. *)
Lemma schema_requires t f :
  required_by_schema t f ↔ f ∈ required_fields t.
Proof.
  split.
  - intros Hreq.
    destruct (decide (f ∈ required_fields t)) as [| Hn]; [done |].
    exfalso. specialize (Hreq (min_args t) (min_args_omits t f Hn)).
    rewrite mcp_call_calls in Hreq.
    assert (request_arguments (min_args t) = inr (min_args t)) as Hr
      by by destruct t.
    rewrite Hr in Hreq.
    destruct (min_args_valid t) as [a Ha]. by rewrite Ha in Hreq.
  - intros (sk & Hin & Hsk)%required_fields_in raw Hf.
    rewrite mcp_call_calls.
    destruct (request_arguments raw) as [| o] eqn:Hr; [done |].
    apply request_arguments_inr in Hr as [Hget _].
    destruct (parse (ZObject (shape_of t)) [] o) as [a|] eqn:Hp;
      [exfalso | done].
    apply parse_valid_object in Hp as (fields & -> & Hp).
    destruct (parse_fields_get _ _ _ _ (shape_NoDup t) Hp _ _ Hin)
      as (vk & Hvk & _).
    rewrite Hget, Hf in Hvk.
    destruct (parse_undefined sk ([] ++ [Key f])%list Hsk) as [issues Hi].
    by rewrite Hi in Hvk.
Qed.

End Properties.

(** * Concrete requests *)

(** C1 (counterexample). [create-product] called with a title only: the
    HTTP handler hands the executor an object without [status], the
    schema one with [status = "DRAFT"]; and [title], which the schema
    requires, is not required by the handler. *)
Lemma create_product_status_not_defaulted :
  get "status"
      (processedArgs CreateProduct
         (toolArgs_of (object [("title", VStr "Mug")]))) = VUndef
  ∧ parse (H := echo_host) (ZObject (shape_of CreateProduct)) []
      (object [("title", VStr "Mug")])
    = Valid (object [("title", VStr "Mug"); ("status", VStr "DRAFT")])
  ∧ ¬ same_defaults (H := echo_host) CreateProduct
        (object [("title", VStr "Mug")])
  ∧ ¬ same_required (H := echo_host) CreateProduct
  ∧ ¬ front_ends_agree (H := echo_host) CreateProduct
        (object [("title", VStr "Mug")]).
Proof.
  assert (¬ same_defaults (H := echo_host) CreateProduct
            (object [("title", VStr "Mug")])) as Hd.
  { intros Hd.
    destruct (Hd "status" eq_refl) as [Hhttp _].
    vm_compute in Hhttp. discriminate. }
  split; [reflexivity |]. split; [reflexivity |]. split; [exact Hd |].
  split.
  - intros Hr.
    apply (handler_requires_nothing (H := echo_host) CreateProduct "title").
    apply Hr. apply schema_requires.
    by apply (bool_decide_unpack _).
  - by intros [? _].
Qed.

(** C2 (witness). [get-products] against an executor that rejects. *)
Lemma get_products_failure_reported :
  handler (H := failing_host) GetProducts (toolArgs_of (object [])) initial
  = ({| calls := [(GetProducts, processedArgs GetProducts (object []))];
        statusCode := 200; sent := None |},
     Throw (JsError "Shopify API error" "Error: Shopify API error"))
  ∧ post_mcp (H := failing_host)
      (tools_call (VStr "get-products") (object [])) initial
    = ({| calls := [(GetProducts, processedArgs GetProducts (object []))];
          statusCode := 500;
          sent := Some (object
                          [("error", VStr "Shopify API error");
                           ("details",
                            VStr "Error: Shopify API error")]) |},
       Ok ()).
Proof.
  split; [reflexivity |].
  destruct (proj2 (executor_failure_is_reported (H := failing_host))
              GetProducts (object []) _ _ eq_refl)
    as (body & Hrun & _ & Hbody).
  rewrite (Hbody _ _ eq_refl) in Hrun. exact Hrun.
Defined.

(** C3 (counterexample). On the HTTP route [get-customer-orders] with
    [customerId: "abc"] is not turned down: the executor runs on it and
    the route answers 200. *)
Lemma http_runs_non_numeric_customer_id :
  post_mcp (H := echo_host)
    (tools_call (VStr "get-customer-orders")
       (object [("customerId", VStr "abc")])) initial
  = ({| calls := [(GetCustomerOrders,
                   object [("customerId", VStr "abc");
                           ("limit", VNum 10)])];
        statusCode := 200;
        sent := Some (text_content (H := echo_host)
                        (object [("customerId", VStr "abc");
                                 ("limit", VNum 10)])) |},
     Ok ()).
Proof. reflexivity. Qed.

(** C3 (witness). ["abc"] and ["12345"] behind the schema. *)
Lemma abc_rejected_12345_accepted :
  (get "customerId" (object [("customerId", VStr "abc")]) = VStr "abc"
   ∧ numeric_string "abc" = false
   ∧ ∃ issues, issues ≠ []
       ∧ mcp_call (H := echo_host) GetCustomerOrders
           (object [("customerId", VStr "abc")]) initial
         = (initial, Ok (inl issues)))
  ∧ (get "id" (object [("id", VStr "abc")]) = VStr "abc"
     ∧ ∃ issues, issues ≠ []
         ∧ mcp_call (H := echo_host) UpdateCustomer
             (object [("id", VStr "abc")]) initial
           = (initial, Ok (inl issues)))
  ∧ (numeric_string "12345" = true
     ∧ calls (mcp_call (H := echo_host) GetCustomerOrders
                (object [("customerId", VStr "12345")]) initial).1
       = [(GetCustomerOrders,
           object [("customerId", VStr "12345"); ("limit", VNum 10)])]
     ∧ calls (mcp_call (H := echo_host) UpdateCustomer
                (object [("id", VStr "12345")]) initial).1
       = [(UpdateCustomer, object [("id", VStr "12345")])]).
Proof.
  pose proof (numeric_id_checked_by_schema_only (H := echo_host))
    as (Hco & Huc & Hok & _).
  split; [| split].
  - split; [reflexivity |]. split; [reflexivity |].
    apply (Hco _ "abc"); reflexivity.
  - split; [reflexivity |]. apply (Huc _ "abc"); reflexivity.
  - split; [reflexivity |]. apply (Hok "12345"). reflexivity.
Defined.

(** C5 (counterexample). On the HTTP route [get-product-by-id] forwards
    a field its schema does not declare. *)
Lemma http_forwards_undeclared_field :
  calls (post_mcp (H := echo_host)
           (tools_call (VStr "get-product-by-id")
              (object [("productId", VStr "42"); ("debug", VBool true)]))
           initial).1
  = [(GetProductById,
      object [("productId", VStr "42"); ("debug", VBool true)])]
  ∧ has_own "debug"
      (object [("productId", VStr "42"); ("debug", VBool true)]) = true
  ∧ ("debug" ∉ declared GetProductById)
  ∧ ¬ only_declared GetProductById
        (object [("productId", VStr "42"); ("debug", VBool true)]).
Proof.
  assert ("debug" ∉ declared GetProductById) as Hn
    by (by apply (bool_decide_unpack _)).
  split; [reflexivity |]. split; [reflexivity |]. split; [exact Hn |].
  intros Ho. apply Hn, Ho. reflexivity.
Qed.

(** C5 (witness). The same undeclared field sent to [get-products]
    does not reach the executor, on either front end. *)
Lemma get_products_drops_undeclared_field :
  only_declared GetProducts
    (object [("searchTitle", VStr "mug"); ("limit", VNum 10)])
  ∧ calls (mcp_call (H := echo_host) GetProducts
             (object [("searchTitle", VStr "mug"); ("debug", VBool true)])
             initial).1
    = [(GetProducts,
        object [("searchTitle", VStr "mug"); ("limit", VNum 10)])]
  ∧ calls (post_mcp (H := echo_host)
             (tools_call (VStr "get-products")
                (object [("searchTitle", VStr "mug");
                         ("debug", VBool true)])) initial).1
    = [(GetProducts,
        object [("searchTitle", VStr "mug"); ("limit", VNum 10)])]
  ∧ calls (post_mcp (H := echo_host)
             (tools_call (VStr "create-product")
                (object [("title", VStr "Mug")])) initial).1
    = [(CreateProduct, toolArgs_of (object [("title", VStr "Mug")]))].
Proof.
  pose proof (undeclared_fields_by_front_end (H := echo_host))
    as (Hmcp & Hhttp & Hpass).
  split; [| split; [reflexivity | split; [reflexivity |]]].
  - apply (Hhttp GetProducts
             (object [("searchTitle", VStr "mug"); ("debug", VBool true)])
             (GetProducts,
              object [("searchTitle", VStr "mug"); ("limit", VNum 10)])).
    + by apply (bool_decide_unpack _).
    + apply list_elem_of_here.
  - apply (Hpass CreateProduct). by apply (bool_decide_unpack _).
Defined.

(** C6 (witness). [params] with [arguments] and no [name]. *)
Lemma arguments_without_name :
  get "method"
      (object [("method", VStr "tools/call");
               ("params", object [("arguments",
                                   object [("limit", VNum 5)])])])
  = VStr "tools/call"
  ∧ post_mcp (H := echo_host)
      (object [("method", VStr "tools/call");
               ("params", object [("arguments",
                                   object [("limit", VNum 5)])])])
      initial
    = ({| calls := []; statusCode := 400;
          sent := Some (object [("error", VStr "Tool name is required")]) |},
       Ok ()).
Proof.
  split; [reflexivity |].
  apply (missing_name_is_bad_request (H := echo_host)); reflexivity.
Defined.

(** C9 (witness). The empty name. *)
Lemma empty_name_is_bad_request :
  truthy (VStr "") = false
  ∧ post_mcp (H := echo_host) (tools_call (VStr "") (object [])) initial
    = ({| calls := []; statusCode := 400;
          sent := Some (object [("error", VStr "Tool name is required")]) |},
       Ok ()).
Proof.
  split; [reflexivity |].
  apply (falsy_name_is_bad_request (H := echo_host)). reflexivity.
Defined.

(** * Further properties of the registry and the route *)

Section Further.
Context `{Host}.

Lemma own_registerTool k k' h
    (registry : list (string * (value → M value))) :
  own k' (registerTool k h registry)
  = if bool_decide (k = k') then Some h else own k' registry.
Proof.
  induction registry as [| [k0 h0] rest IH]; cbn [registerTool own].
  - by repeat case_bool_decide.
  - destruct (decide (k0 = k)) as [-> | Hne].
    + rewrite bool_decide_eq_true_2 by done. cbn [own].
      by repeat case_bool_decide.
    + rewrite bool_decide_eq_false_2 by done. cbn [own]. rewrite IH.
      repeat case_bool_decide; congruence.
Qed.

Lemma names_registerTool k h
    (registry : list (string * (value → M value))) :
  (registerTool k h registry).*1
  = if bool_decide (k ∈ registry.*1) then registry.*1
    else (registry.*1 ++ [k])%list.
Proof.
  induction registry as [| [k0 h0] rest IH]; cbn [registerTool].
  - rewrite bool_decide_eq_false_2; [done | by intros ?%elem_of_nil].
  - cbn [fmap list_fmap fst]. destruct (decide (k0 = k)) as [-> | Hne].
    + rewrite bool_decide_eq_true_2 by done. cbn [fmap list_fmap fst].
      rewrite bool_decide_eq_true_2; [done | apply list_elem_of_here].
    + rewrite bool_decide_eq_false_2 by done. cbn [fmap list_fmap fst].
      fold (fmap (M := list) (@fst string (value → M value))).
      rewrite IH. case_bool_decide as Hin.
      * rewrite bool_decide_eq_true_2; [done |].
        by apply list_elem_of_further.
      * rewrite bool_decide_eq_false_2; [done |].
        intros [?|?]%elem_of_cons; congruence.
Qed.

(** X1. For a name other than ["__proto__"] (an assignment to which
    sets the prototype instead of a property): looking the name up
    after [registerTool] finds the handler just registered, and the
    lookup of every other name is as before. *)
Theorem registerTool_lookup k k' h
    (registry : list (string * (value → M value))) :
  k ≠ "__proto__" →
  own k (registerTool k h registry) = Some h
  ∧ (k' ≠ k → own k' (registerTool k h registry) = own k' registry).
Proof.
  intros _. rewrite !own_registerTool. split.
  - by rewrite bool_decide_eq_true_2.
  - intros Hne. by rewrite bool_decide_eq_false_2.
Qed.

Lemma registerTool_present k h
    (registry : list (string * (value → M value))) :
  NoDup registry.*1 →
  k ∈ registry.*1 →
  registerTool k h registry
  = (λ p, if bool_decide (p.1 = k) then (p.1, h) else p) <$> registry.
Proof.
  induction registry as [| [k0 h0] rest IH]; intros Hnd Hin.
  - by apply elem_of_nil in Hin.
  - cbn [fmap list_fmap fst] in Hnd, Hin.
    apply NoDup_cons in Hnd as [Hk0 Hnd].
    cbn [registerTool fmap list_fmap fst].
    destruct (decide (k0 = k)) as [-> | Hne].
    + rewrite !bool_decide_eq_true_2 by done. f_equal.
      clear IH Hin Hnd. induction rest as [| [k1 h1] rest IH]; [done |].
      cbn [fmap list_fmap fst] in Hk0 |- *.
      apply not_elem_of_cons in Hk0 as [Hne Hk0].
      rewrite bool_decide_eq_false_2 by done. f_equal. by apply IH.
    + rewrite !bool_decide_eq_false_2 by done. f_equal.
      apply elem_of_cons in Hin as [-> | Hin]; [done |]. by apply IH.
Qed.

(** X2. For a name other than ["__proto__"]: registering a name that
    is already present replaces its handler in place, so the last
    registration wins while every other entry, the names and their
    order are unchanged; a new name adds exactly one entry, bound to
    the handler; names stay distinct. *)
Theorem registerTool_names k h
    (registry : list (string * (value → M value))) :
  k ≠ "__proto__" →
  NoDup registry.*1 →
  (k ∈ registry.*1 →
   registerTool k h registry
   = (λ p, if bool_decide (p.1 = k) then (p.1, h) else p) <$> registry
   ∧ (registerTool k h registry).*1 = registry.*1)
  ∧ (k ∉ registry.*1 →
     (registerTool k h registry).*1 ≡ₚ k :: registry.*1)
  ∧ own k (registerTool k h registry) = Some h
  ∧ NoDup (registerTool k h registry).*1.
Proof.
  intros _ Hnd. split; [| split; [| split]].
  - intros Hin. split; [by apply registerTool_present |].
    by rewrite names_registerTool, bool_decide_eq_true_2.
  - intros Hin. rewrite names_registerTool.
    rewrite bool_decide_eq_false_2 by done.
    by rewrite Permutation_app_comm.
  - rewrite own_registerTool. by rewrite bool_decide_eq_true_2.
  - rewrite names_registerTool. case_bool_decide as Hin; [done |].
    apply NoDup_app. split; [done |]. split.
    + intros x Hx ->%list_elem_of_singleton. contradiction.
    + apply NoDup_singleton.
Qed.

(** X3. After start-up the registry holds the nine tools in the order
    of their registration, each name once, and the lookup of each name
    finds the handler of that tool: no registration shadows another. *)
Theorem registry_contents :
  toolHandlers.*1 = tool_name <$> all_tools
  ∧ NoDup (toolHandlers.*1)
  ∧ length toolHandlers = 9
  ∧ (∀ t, own (tool_name t) toolHandlers = Some (handler t)).
Proof.
  split; [reflexivity |]. split; [by apply (bool_decide_unpack _) |].
  split; [reflexivity |]. apply own_registered.
Qed.

Lemma is_string_false s v : v ≠ VStr s → is_string s v = false.
Proof.
  intros Hv. destruct v; try reflexivity.
  cbn. apply bool_decide_eq_false_2. congruence.
Qed.

(** X4. [tools/list] answers 200 with one entry per registered tool, in
    registration order, each with its name and the description
    "Shopify <name> tool"; whatever else the body carries, no executor
    runs. *)
Theorem tools_list_response body :
  get "method" body = VStr "tools/list" →
  post_mcp body initial
  = ({| calls := []; statusCode := 200;
        sent := Some (object
          [("tools",
            VArr (map (λ t,
                         object
                           [("name", VStr (tool_name t));
                            ("description",
                             VStr ("Shopify " ++ tool_name t ++ " tool"))])
                      all_tools))]) |},
     Ok ()).
Proof.
  destruct body; try discriminate. intros Hm.
  unfold post_mcp. rewrite Hm. reflexivity.
Qed.

(** X5. A body whose [method] is neither "tools/list" nor "tools/call"
    (absent and non-string methods included) is answered 400
    "Unknown method" and runs no executor. *)
Theorem unknown_method_is_bad_request body :
  body ≠ VUndef → body ≠ VNull →
  get "method" body ≠ VStr "tools/list" →
  get "method" body ≠ VStr "tools/call" →
  post_mcp body initial
  = ({| calls := []; statusCode := 400;
        sent := Some (object [("error", VStr "Unknown method")]) |},
     Ok ()).
Proof.
  intros Hu Hn Hl Hc. unfold post_mcp.
  destruct body; try done;
    by rewrite ?(is_string_false _ _ Hl), ?(is_string_false _ _ Hc).
Qed.

(** X6. When the executor of a registered tool returns [r], the route
    answers 200 with [{ content: [{ type: "text", text:
    JSON.stringify(r) }] }], having called that executor exactly once,
    on what the handler made of the coerced arguments. *)
Theorem success_envelope t args r :
  execute t (processedArgs t (toolArgs_of args)) = Ok r →
  post_mcp (tools_call (VStr (tool_name t)) args) initial
  = ({| calls := [(t, processedArgs t (toolArgs_of args))];
        statusCode := 200;
        sent := Some (object
          [("content",
            VArr [object [("type", VStr "text");
                          ("text", JSON_stringify r)]])]) |},
     Ok ()).
Proof. intros Hr. rewrite registered_run. by rewrite Hr. Qed.

Lemma dispatch_key_run name key args :
  truthy name = true →
  to_string name = Some key →
  try_catch (dispatch name args) request_failed initial
  = try_catch
      (if missing (lookup_handler key) then
         status 404;;
         json (object [("error", VStr ("Tool '" ++ key ++ "' not found"))])
       else
         try_catch
           (r ← invoke (lookup_handler key) (toolArgs_of args);
            json r)
           execution_failed)
      request_failed initial.
Proof.
  intros Hn Hk. unfold try_catch at 1 3. by rewrite (dispatch_key name key).
Qed.

(** X7. Whatever the request, the route runs at most one executor and
    ends with status 200, 400, 404 or 500; when an executor did run the
    status is 200 or 500, so a 400 or 404 answer means nothing was
    executed. *)
Theorem one_executor_per_request body :
  (length (calls (post_mcp body initial).1) ≤ 1)%nat
  ∧ statusCode (post_mcp body initial).1 ∈ [200; 400; 404; 500]
  ∧ (calls (post_mcp body initial).1 = []
     ∨ statusCode (post_mcp body initial).1 = 200
     ∨ statusCode (post_mcp body initial).1 = 500).
Proof.
  assert (∀ name args,
    let st := (try_catch (dispatch name args) request_failed initial).1 in
    (length (calls st) ≤ 1)%nat ∧ statusCode st ∈ [200; 400; 404; 500]
    ∧ (calls st = [] ∨ statusCode st = 200 ∨ statusCode st = 500))
    as Hdispatch.
  { intros name args.
    assert (∀ st' : state * result unit,
      (calls st'.1 = [] ∧ statusCode st'.1 ∈ [200; 400; 404; 500])
      ∨ ((∃ c, calls st'.1 = [c])
         ∧ (statusCode st'.1 = 200 ∨ statusCode st'.1 = 500)) →
      (length (calls st'.1) ≤ 1)%nat ∧ statusCode st'.1 ∈ [200; 400; 404; 500]
      ∧ (calls st'.1 = [] ∨ statusCode st'.1 = 200
         ∨ statusCode st'.1 = 500)) as Hsum.
    { intros st' [[-> Hs] | [[c ->] Hs]].
      - cbn. split; [lia |]. split; [done | by left].
      - cbn. split; [lia |]. split; [| by right].
        destruct Hs as [-> | ->]; apply (bool_decide_unpack _); lazy; exact I. }
    cbv zeta. apply Hsum.
    destruct (truthy name) eqn:Hn; cycle 1.
    { unfold try_catch. rewrite dispatch_falsy by done.
      left. split; [reflexivity | apply (bool_decide_unpack _); lazy; exact I]. }
    destruct (to_string name) as [key|] eqn:Hk; cycle 1.
    { unfold try_catch. rewrite dispatch_no_key by done.
      left. split; [reflexivity | apply (bool_decide_unpack _); lazy; exact I]. }
    destruct (lookup_handler key) as [h | b | |] eqn:Hl.
    - destruct (lookup_own_inv _ _ Hl) as [t ->].
      rewrite (own_run _ key t) by done. right.
      destruct (execute t (processedArgs t (toolArgs_of args))) as [r|e].
      + split; [by eexists | by left].
      + destruct (failure_run e [(t, processedArgs t (toolArgs_of args))])
          as (body' & -> & _). split; [by eexists | by right].
    - rewrite (dispatch_key_run name key) by done.
      rewrite Hl. cbn [missing]. left.
      destruct b; cbn [invoke]; unfold to_key;
        try destruct (to_string (toolArgs_of args));
        (split; [reflexivity | apply (bool_decide_unpack _); lazy; exact I]).
    - rewrite (dispatch_key_run name key) by done.
      rewrite Hl. left.
      split; [reflexivity | apply (bool_decide_unpack _); lazy; exact I].
    - rewrite (dispatch_key_run name key) by done.
      rewrite Hl. left.
      split; [reflexivity | apply (bool_decide_unpack _); lazy; exact I]. }
  assert (∀ st' : state * result unit,
    calls st'.1 = [] ∧ statusCode st'.1 ∈ [200; 400; 404; 500] →
    (length (calls st'.1) ≤ 1)%nat ∧ statusCode st'.1 ∈ [200; 400; 404; 500]
    ∧ (calls st'.1 = [] ∨ statusCode st'.1 = 200
       ∨ statusCode st'.1 = 500)) as Hquiet.
  { intros st' [-> Hs]. cbn. split; [lia |]. split; [done | by left]. }
  destruct body as [| | b | n | s | items | fields];
    try (apply Hquiet; split;
         [reflexivity | apply (bool_decide_unpack _); lazy; exact I]).
  unfold post_mcp.
  destruct (is_string "tools/list" (get "method" (VObj fields))).
  { apply Hquiet. split; [reflexivity | apply (bool_decide_unpack _); lazy; exact I]. }
  destruct (is_string "tools/call" (get "method" (VObj fields))).
  - apply Hdispatch.
  - apply Hquiet. split; [reflexivity | apply (bool_decide_unpack _); lazy; exact I].
Qed.

(** X8. When the executor rejects with a value that is not an [Error]:
    [null] and [undefined] make the inner [catch] itself throw, and the
    outer [catch] answers 500 with an [error] and no [details]; any
    other value is answered 500 with [error] taken from its [message]
    property, or "Tool execution failed", and [details] from its
    [stack] property. *)
Theorem non_error_rejection t args v :
  execute t (processedArgs t (toolArgs_of args)) = Throw (Raised v) →
  ∃ body,
    post_mcp (tools_call (VStr (tool_name t)) args) initial
    = ({| calls := [(t, processedArgs t (toolArgs_of args))];
          statusCode := 500; sent := Some body |}, Ok ())
    ∧ (v = VNull ∨ v = VUndef →
       has_own "details" body = false
       ∧ ∃ message, get "error" body = VStr message)
    ∧ (v ≠ VNull → v ≠ VUndef →
       body = object
                [("error",
                  or_else (get "message" v) (VStr "Tool execution failed"));
                 ("details", get "stack" v)]).
Proof.
  intros Hx. rewrite registered_run, Hx.
  destruct v; eexists; (split; [reflexivity |]); split.
  all: try (intros [? | ?]; discriminate).
  all: try (intros _; split; [reflexivity | by eexists]).
  all: try (intros Hn Hu; congruence).
  all: intros _ _; reflexivity.
Qed.

(** X9. A [name] given as a one-element array of a non-empty string is
    converted to that string by the property lookup: the request is
    handled exactly like the one naming the tool by the string. *)
Theorem array_name_is_its_element s args :
  s ≠ "" →
  post_mcp (tools_call (VArr [VStr s]) args) initial
  = post_mcp (tools_call (VStr s) args) initial.
Proof.
  intros Hs. rewrite !post_mcp_tools_call.
  rewrite (dispatch_key_run (VArr [VStr s]) s), (dispatch_key_run (VStr s) s);
    try reflexivity.
  cbn [truthy]. by rewrite bool_decide_eq_false_2.
Qed.

Lemma toolArgs_of_non_object args :
  (∀ items, args ≠ VArr items) → (∀ fields, args ≠ VObj fields) →
  toolArgs_of args = object [].
Proof.
  intros Ha Ho. unfold toolArgs_of.
  destruct args; try reflexivity; try by rewrite andb_false_r.
  - by destruct (Ha items).
  - by destruct (Ho fields).
Qed.

(** X10. [arguments] that are neither an object nor an array (absent,
    [null], a string, a number, a boolean) are replaced by [{}]: the
    request ends exactly as with [arguments: {}]. *)
Theorem non_object_arguments_as_empty name args :
  (∀ items, args ≠ VArr items) → (∀ fields, args ≠ VObj fields) →
  post_mcp (tools_call name args) initial
  = post_mcp (tools_call name (object [])) initial.
Proof.
  intros Ha Ho. rewrite !post_mcp_tools_call. unfold dispatch.
  rewrite (toolArgs_of_non_object args) by done. reflexivity.
Qed.

(** ** The handlers against the schemas *)

Lemma opt_get_toolArgs_of f args : opt_get f (toolArgs_of args) = get f args.
Proof.
  destruct args; try reflexivity.
  - by destruct b.
  - unfold toolArgs_of. by rewrite andb_false_r.
  - unfold toolArgs_of.
    by destruct (truthy (VStr s) && typeof_object (VStr s)).
Qed.

Lemma processedArgs_field t args f :
  t ∈ builds_processedArgs →
  f ∈ declared t →
  get f (processedArgs t (toolArgs_of args))
  = match declared_default t f with
    | Some d => nullish (get f args) d
    | None => get f args
    end.
Proof.
  intros Ht Hf.
  destruct t;
    try (exfalso; revert Ht; by apply (bool_decide_unpack _));
    cbn [declared shape_of fmap list_fmap fst] in Hf;
    repeat (apply elem_of_cons in Hf as [-> | Hf]);
    try (by apply elem_of_nil in Hf);
    unfold processedArgs; rewrite !opt_get_toolArgs_of; reflexivity.
Qed.

Lemma processedArgs_undeclared t args f :
  t ∈ builds_processedArgs →
  f ∉ declared t →
  get f (processedArgs t (toolArgs_of args)) = VUndef.
Proof.
  intros Ht Hf.
  destruct (has_own f (processedArgs t (toolArgs_of args))) eqn:Ho.
  - exfalso. apply Hf.
    destruct t;
      try (exfalso; revert Ht; by apply (bool_decide_unpack _));
      by apply object_keys in Ho.
  - destruct (processedArgs t (toolArgs_of args)); try reflexivity.
    cbn [has_own get] in *.
    apply bool_decide_eq_false, eq_None_not_Some in Ho. by rewrite Ho.
Qed.

(** X11. What the four handlers that build [processedArgs] hand the
    executor is determined field by field: a field the schema declares
    with a default is the value sent, or the default when that value
    is [null] or [undefined]; a declared field without a default is
    the value sent, whatever it is ([undefined] when omitted); every
    other property is absent. *)
Theorem handler_copies_declared_fields t args f :
  t ∈ builds_processedArgs →
  get f (processedArgs t (toolArgs_of args))
  = if bool_decide (f ∈ declared t) then
      match declared_default t f with
      | Some d => nullish (get f args) d
      | None => get f args
      end
    else VUndef.
Proof.
  intros Ht. case_bool_decide as Hf.
  - by apply processedArgs_field.
  - by apply processedArgs_undeclared.
Qed.

Lemma get_not_own k a : has_own k a = false → get k a = VUndef.
Proof.
  destruct a; try reflexivity. cbn [has_own get].
  intros Hk%bool_decide_eq_false%eq_None_not_Some. by rewrite Hk.
Qed.

Lemma field_parsed t raw a k sk :
  parse (ZObject (shape_of t)) [] raw = Valid a →
  (k, sk) ∈ shape_of t →
  parse sk [Key k] (get k raw) = Valid (get k a).
Proof.
  intros Hp Hin. apply parse_valid_object in Hp as (fields & -> & Hp).
  destruct (parse_fields_get _ _ _ _ (shape_NoDup t) Hp _ _ Hin)
    as (vk & Hvk & <-). exact Hvk.
Qed.

(** X12. For the four tools whose handler builds [processedArgs]:
    whenever the schema accepts the arguments, the object the HTTP
    handler gives the executor reads the same, on every property, as
    the object the schema produces. *)
Theorem builders_agree_with_schema t raw a k :
  t ∈ builds_processedArgs →
  parse (ZObject (shape_of t)) [] raw = Valid a →
  get k (processedArgs t (toolArgs_of raw)) = get k a.
Proof.
  intros Ht Hp.
  destruct (decide (k ∈ declared t)) as [Hk | Hk]; cycle 1.
  { rewrite (get_not_own k a); cycle 1.
    { apply not_true_is_false. intros Ho.
      by apply Hk, (schema_only_declared t raw a Hp). }
    apply get_not_own, not_true_is_false. intros Ho. apply Hk.
    destruct t;
      try (exfalso; revert Ht; by apply (bool_decide_unpack _));
      by apply object_keys in Ho. }
  rewrite processedArgs_field by done.
  destruct t;
    try (exfalso; revert Ht; by apply (bool_decide_unpack _));
    cbn [declared shape_of fmap list_fmap fst] in Hk;
    repeat (apply elem_of_cons in Hk as [-> | Hk]);
    try (by apply elem_of_nil in Hk);
    match goal with
    | |- context [declared_default ?t ?f] =>
        let sk := eval vm_compute in
          (from_option (λ p, p.2.2) ZNumber
             (list_find (λ p, p.1 = f) (shape_of t))) in
        assert ((f, sk) ∈ shape_of t) as Hin by (repeat constructor);
        pose proof (field_parsed _ _ _ _ _ Hp Hin) as Hf;
        change (declared_default t f) with
          (match sk with ZDefault _ d => Some d | _ => None end)
    end;
    cbn [parse] in Hf;
    destruct (get _ raw) as [| | b | n | s | items | fs];
    cbn in Hf; try discriminate Hf;
    repeat match type of Hf with
           | context [if ?c then _ else _] => destruct c
           end;
    try discriminate Hf; by injection Hf.
Qed.

(** ** The schemas *)


Lemma parse_fields_insert shape path (fields : gmap string value) x v :
  x ∉ shape.*1 →
  parse_fields shape path (VObj (<[x := v]> fields))
  = parse_fields shape path (VObj fields).
Proof.
  induction shape as [| [k sk] rest IH]; [reflexivity |].
  cbn [fmap list_fmap fst]. intros Hx.
  apply not_elem_of_cons in Hx as [Hne Hx].
  unfold parse_fields in *. cbn [foldr fst snd]. rewrite (IH Hx).
  cbn [get has_own]. by rewrite lookup_insert_ne.
Qed.

(** X14. A field the schema does not declare has no influence behind
    the schema: adding it to the arguments, with any value, changes
    neither the verdict nor the issues nor what the executor
    receives. *)
Theorem schema_ignores_undeclared t (fields : gmap string value) x v st :
  x ∉ declared t →
  mcp_call t (VObj (<[x := v]> fields)) st = mcp_call t (VObj fields) st.
Proof.
  intros Hx. rewrite !mcp_call_run. cbn [request_arguments].
  by rewrite !parse_object_unfold, parse_fields_insert.
Qed.

(** A declared field that fails its own schema fails the call. *)
Lemma invalid_field_invalid t raw k sk issues :
  (k, sk) ∈ shape_of t →
  parse sk [Key k] (get k raw) = Invalid issues →
  ∃ issues', parse (ZObject (shape_of t)) [] raw = Invalid issues'.
Proof.
  intros Hin Hk.
  destruct (parse (ZObject (shape_of t)) [] raw) as [a|] eqn:Hp.
  - rewrite (field_parsed _ _ _ _ _ Hp Hin) in Hk. discriminate.
  - by eexists.
Qed.

(** X15. Behind the schema one bad field is enough: when a declared
    field fails its own schema the call is turned down and the executor
    does not run, whatever the other fields are. *)
Theorem invalid_field_rejects t raw k sk issues :
  (k, sk) ∈ shape_of t →
  parse sk [Key k] (get k raw) = Invalid issues →
  ∃ issues', mcp_call t raw initial = (initial, Ok (inl issues')).
Proof.
  intros Hin Hk. rewrite mcp_call_run.
  destruct (request_arguments raw) as [| o] eqn:Hr; [by eexists |].
  apply request_arguments_inr in Hr as [Hget _]. rewrite <- Hget in Hk.
  destruct (invalid_field_invalid _ _ _ _ _ Hin Hk) as [issues' Hp].
  exists issues'. by rewrite Hp.
Qed.

(** X16. [update-order] and [update-customer] turn down an [email] that
    is a string zod does not take for an address, before the executor
    runs; the HTTP route hands the same arguments to the executor. *)
Theorem email_checked_by_schema_only t raw s :
  t = UpdateOrder ∨ t = UpdateCustomer →
  get "email" raw = VStr s →
  is_email s = false →
  (∃ issues, mcp_call t raw initial = (initial, Ok (inl issues)))
  ∧ calls (post_mcp (tools_call (VStr (tool_name t)) raw) initial).1
    = [(t, raw)].
Proof.
  intros Ht He Hs. split.
  - destruct (invalid_field_invalid t raw "email"
                (ZOptional (ZString [Email]))
                [{| issue_path := [Key "email"]; code := invalid_string;
                    custom_message := None |}]) as [issues Hp].
    + destruct Ht as [-> | ->]; repeat constructor.
    + rewrite He. cbn. by rewrite Hs.
    + exists issues. rewrite mcp_call_run.
      destruct raw; try discriminate He. cbn [request_arguments].
      by rewrite Hp.
  - rewrite registered_calls.
    assert (toolArgs_of raw = raw) as ->
      by (destruct raw; try discriminate; reflexivity).
    by destruct Ht as [-> | ->].
Qed.

(** X17. Behind the schema the executor receives every required field
    as a non-empty string. *)
Theorem required_fields_are_non_empty t raw a f :
  parse (ZObject (shape_of t)) [] raw = Valid a →
  f ∈ required_fields t →
  ∃ s, s ≠ "" ∧ get f raw = VStr s ∧ get f a = VStr s.
Proof.
  intros Hp (sk & Hin & Hsk)%required_fields_in.
  pose proof (field_parsed _ _ _ _ _ Hp Hin) as Hk.
  assert (sk = ZString [Min 1] ∨ ∃ m, sk = ZString [Regex_digits m])
    as Hform.
  { destruct t; cbn [shape_of] in Hin;
      repeat (apply elem_of_cons in Hin as [Hin | Hin]);
      try (by apply elem_of_nil in Hin);
      injection Hin as -> ->; try discriminate Hsk; eauto. }
  destruct Hform as [-> | [m ->]]; cbn [parse] in Hk;
    destruct (get f raw) as [| | b | n | s | items | fs];
    try discriminate Hk;
    (destruct s as [| c s]; [cbn in Hk; discriminate Hk |]).
  - cbn in Hk. injection Hk as <-. by exists (String c s).
  - cbn [map concat check_string app] in Hk.
    destruct (numeric_string (String c s)); [| discriminate Hk].
    injection Hk as <-. by exists (String c s).
Qed.

(** X18. Behind the schema the executor receives [limit] as a number
    that is not NaN, and a [status] that is one of the values the
    schema of the tool enumerates. *)
Theorem defaulted_fields_are_typed t raw a :
  parse (ZObject (shape_of t)) [] raw = Valid a →
  ("limit" ∈ declared t →
   ∃ n, get "limit" a = VNum n ∧ PrimFloat.is_nan n = false)
  ∧ (t = GetOrders →
     ∃ s, get "status" a = VStr s
          ∧ s ∈ ["any"; "open"; "closed"; "cancelled"])
  ∧ (t = CreateProduct →
     ∃ s, get "status" a = VStr s ∧ s ∈ ["ACTIVE"; "DRAFT"; "ARCHIVED"]).
Proof.
  intros Hp. split; [| split].
  - intros Hl. apply limit_tools in Hl as [_ Hd].
    apply declared_default_in in Hd as (inner & Hin & _).
    assert (inner = ZNumber) as ->.
    { destruct t; cbn [shape_of] in Hin;
        repeat (apply elem_of_cons in Hin as [Hin | Hin]);
        try (by apply elem_of_nil in Hin); congruence. }
    pose proof (field_parsed _ _ _ _ _ Hp Hin) as Hk.
    cbn [parse] in Hk.
    destruct (get "limit" raw) as [| | b | n | s | items | fs];
      try discriminate Hk.
    + injection Hk as <-. by eexists.
    + destruct (PrimFloat.is_nan n) eqn:Hn; [discriminate |].
      injection Hk as <-. by eexists.
  - intros ->.
    assert (("status",
             ZDefault (ZEnum ["any"; "open"; "closed"; "cancelled"])
               (VStr "any")) ∈ shape_of GetOrders) as Hin
      by repeat constructor.
    pose proof (field_parsed _ _ _ _ _ Hp Hin) as Hk.
    cbn [parse] in Hk.
    destruct (get "status" raw) as [| | b | n | s | items | fs];
      try discriminate Hk.
    + injection Hk as <-. eexists. split; [done |]. repeat constructor.
    + case_bool_decide; [| discriminate].
      injection Hk as <-. by eexists.
  - intros ->.
    assert (("status",
             ZDefault (ZEnum ["ACTIVE"; "DRAFT"; "ARCHIVED"])
               (VStr "DRAFT")) ∈ shape_of CreateProduct) as Hin
      by repeat constructor.
    pose proof (field_parsed _ _ _ _ _ Hp Hin) as Hk.
    cbn [parse] in Hk.
    destruct (get "status" raw) as [| | b | n | s | items | fs];
      try discriminate Hk.
    + injection Hk as <-. eexists. split; [done |]. repeat constructor.
    + case_bool_decide; [| discriminate].
      injection Hk as <-. by eexists.
Qed.

(** *** Parsing twice *)

Lemma schema_nested_ind (P : schema → Prop) :
  (∀ checks, P (ZString checks)) →
  P ZNumber →
  P ZBoolean →
  (∀ options, P (ZEnum options)) →
  (∀ element, P element → P (ZArray element)) →
  (∀ shape, Forall (λ p, P p.2) shape → P (ZObject shape)) →
  (∀ inner, P inner → P (ZOptional inner)) →
  (∀ inner d, P inner → P (ZDefault inner d)) →
  ∀ s, P s.
Proof.
  intros Hs Hn Hb He Ha Ho Hopt Hd. fix IH 1.
  intros [checks | | | options | element | shape | inner | inner d].
  - apply Hs.
  - apply Hn.
  - apply Hb.
  - apply He.
  - apply Ha, IH.
  - apply Ho. induction shape as [| [k sk] rest IHrest]; constructor.
    + apply IH.
    + apply IHrest.
  - apply Hopt, IH.
  - apply Hd, IH.
Qed.

Lemma parse_items_array f path i items v :
  parse_items f path i items = Valid v → ∃ vs, v = VArr vs.
Proof.
  destruct items as [| x rest]; cbn [parse_items].
  - intros [= <-]. by eexists.
  - destruct (f (path ++ [Index i])%list x); [| discriminate].
    destruct (parse_items f path (S i) rest) as [[| | | | | vs |]|];
      try discriminate.
    intros [= <-]. by eexists.
Qed.

Lemma parse_fields_object shape path v a :
  parse_fields shape path v = Valid a → ∃ fs, a = VObj fs.
Proof.
  destruct shape as [| [k sk] rest]; cbn [parse_fields foldr].
  - intros [= <-]. by eexists.
  - intros (v' & fs & _ & _ & ->)%merge_pair_valid. by eexists.
Qed.

(** A schema yields [undefined] only for [undefined]. *)
Lemma undefined_output s :
  ∀ path v, parse s path v = Valid VUndef → v = VUndef.
Proof.
  induction s as [checks | | | options | element IH | shape IH
                 | inner IH | inner d IH] using schema_nested_ind;
    intros path v Hp.
  - cbn [parse] in Hp. destruct v; try discriminate Hp.
    destruct (concat _); discriminate Hp.
  - cbn [parse] in Hp. destruct v; try discriminate Hp.
    destruct (PrimFloat.is_nan n); discriminate Hp.
  - cbn [parse] in Hp. destruct v; discriminate Hp.
  - cbn [parse] in Hp. destruct v; try discriminate Hp.
    case_bool_decide; discriminate Hp.
  - cbn [parse] in Hp. destruct v; try discriminate Hp.
    by apply parse_items_array in Hp as [vs [=]].
  - destruct v; try (cbn [parse] in Hp; discriminate Hp).
    rewrite parse_object_unfold in Hp.
    by apply parse_fields_object in Hp as [fs [=]].
  - cbn [parse] in Hp. destruct v; try done; by apply IH in Hp.
  - cbn [parse] in Hp. destruct v; try done; by apply IH in Hp.
Qed.

Lemma parse_items_again f path :
  ∀ items i vs,
    Forall (λ x, ∀ p y, f p x = Valid y → f p y = Valid y) items →
    parse_items f path i items = Valid (VArr vs) →
    parse_items f path i vs = Valid (VArr vs).
Proof.
  induction items as [| x rest IH]; intros i vs Hf Hp;
    cbn [parse_items] in Hp.
  - by injection Hp as <-.
  - apply Forall_cons in Hf as [Hx Hrest].
    destruct (f (path ++ [Index i])%list x) as [y|] eqn:Hy;
      [| discriminate].
    destruct (parse_items f path (S i) rest) as [[| | | | | ys |]|] eqn:Hys;
      try discriminate.
    injection Hp as <-. cbn [parse_items].
    by rewrite (Hx _ _ Hy), (IH _ _ Hrest Hys).
Qed.

Lemma parse_fields_again shape path :
  NoDup shape.*1 →
  Forall (λ p, ∀ pa v v', parse p.2 pa v = Valid v' →
                          parse p.2 pa v' = Valid v') shape →
  ∀ v (fs fs' : gmap string value),
    parse_fields shape path v = Valid (VObj fs) →
    (∀ k, k ∈ shape.*1 → fs' !! k = fs !! k) →
    parse_fields shape path (VObj fs') = Valid (VObj fs).
Proof.
  induction shape as [| [k sk] rest IH]; intros Hnd Hall v fs fs' Hp Hagree.
  - exact Hp.
  - cbn [fmap list_fmap fst] in Hnd, Hagree.
    apply NoDup_cons in Hnd as [Hk Hnd].
    apply Forall_cons in Hall as [Hsk Hall]. cbn [snd] in Hsk.
    cbn [parse_fields foldr fst snd] in Hp |- *.
    apply merge_pair_valid in Hp as (vk & fsr & Hvk & Hrest & [= ->]).
    assert (fsr !! k = None) as Hnone.
    { apply eq_None_not_Some. intros Hs. apply Hk.
      by apply (parse_fields_keys rest path v fsr). }
    fold (parse_fields rest path (VObj fs')).
    rewrite (IH Hnd Hall v fsr fs' Hrest); cycle 1.
    { intros k' Hk'. rewrite Hagree by by apply list_elem_of_further.
      assert (k ≠ k') as Hne by (intros ->; contradiction).
      destruct vk; try destruct (has_own k v);
        by rewrite ?lookup_insert_ne. }
    specialize (Hagree k (list_elem_of_here _ _)).
    cbn [get has_own]. rewrite Hagree.
    destruct vk; try destruct (has_own k v);
      rewrite ?lookup_insert_eq, ?Hnone; cbn [default from_option id];
      rewrite (Hsk _ _ _ Hvk);
      first [ rewrite bool_decide_eq_true_2 by (by eexists)
            | rewrite bool_decide_eq_false_2 by (by intros [? [=]]) ];
      reflexivity.
Qed.

Lemma checks_again path x checks :
  concat (map (check_string path x) checks) = [] →
  parse (ZString checks) path (VStr x) = Valid (VStr x).
Proof. intros Hc. cbn [parse]. by rewrite Hc. Qed.

(** Parsing the output of a successful parse returns it unchanged. *)
Lemma parse_again s :
  distinct_keys s = true →
  ∀ path v v', parse s path v = Valid v' → parse s path v' = Valid v'.
Proof.
  induction s as [checks | | | options | element IH | shape IH
                 | inner IH | inner d IH] using schema_nested_ind;
    intros Hwf path v v' Hp.
  - cbn [parse] in Hp. destruct v; try discriminate Hp.
    destruct (concat _) eqn:Hc; [| discriminate Hp].
    injection Hp as <-. by apply checks_again.
  - cbn [parse] in Hp |- *. destruct v; try discriminate Hp.
    destruct (PrimFloat.is_nan n) eqn:Hn; [discriminate Hp |].
    injection Hp as <-. by rewrite Hn.
  - cbn [parse] in Hp. destruct v; try discriminate Hp.
    by injection Hp as <-.
  - cbn [parse] in Hp |- *. destruct v; try discriminate Hp.
    case_bool_decide as Hin; [| discriminate Hp].
    injection Hp as <-. by rewrite bool_decide_eq_true_2.
  - cbn [parse] in Hp. destruct v; try discriminate Hp.
    destruct (parse_items_array _ _ _ _ _ Hp) as [vs ->].
    cbn [parse]. apply (parse_items_again _ _ items); [| done].
    apply Forall_forall. intros x _ p y. by apply IH.
  - destruct v; try (cbn [parse] in Hp; discriminate Hp).
    rewrite parse_object_unfold in Hp.
    destruct (parse_fields_object _ _ _ _ Hp) as [fs ->].
    rewrite parse_object_unfold.
    cbn [distinct_keys] in Hwf. apply andb_true_iff in Hwf as [Hnd Hall].
    apply bool_decide_eq_true in Hnd.
    apply (parse_fields_again shape path Hnd) with (v := VObj fields);
      [| done | done].
    clear Hp Hnd. induction shape as [| [k sk] rest IHrest];
      [constructor |].
    apply Forall_cons in IH as [Hsk Hrest].
    apply andb_true_iff in Hall as [Hwk Hwrest].
    constructor; [by apply Hsk | by apply IHrest].
  - cbn [parse distinct_keys] in *. destruct v.
    + by injection Hp as <-.
    + pose proof (IH Hwf _ _ _ Hp) as Hq. by destruct v'.
    + pose proof (IH Hwf _ _ _ Hp) as Hq. by destruct v'.
    + pose proof (IH Hwf _ _ _ Hp) as Hq. by destruct v'.
    + pose proof (IH Hwf _ _ _ Hp) as Hq. by destruct v'.
    + pose proof (IH Hwf _ _ _ Hp) as Hq. by destruct v'.
    + pose proof (IH Hwf _ _ _ Hp) as Hq. by destruct v'.
  - cbn [parse distinct_keys] in *.
    pose proof (IH Hwf _ _ _ Hp) as Hq.
    destruct v'; try exact Hq.
    destruct v; try (by apply undefined_output in Hp).
    exact Hp.
Qed.

(** X19. What the schema of a tool produces from accepted arguments is
    itself accepted and comes back unchanged: sent again, the
    parsed-and-defaulted object reaches the executor as it is. *)
Theorem validated_arguments_are_stable t raw a :
  parse (ZObject (shape_of t)) [] raw = Valid a →
  parse (ZObject (shape_of t)) [] a = Valid a
  ∧ calls (mcp_call t a initial).1 = [(t, a)].
Proof.
  intros Hp.
  assert (parse (ZObject (shape_of t)) [] a = Valid a) as Ha.
  { apply (parse_again _) with (v := raw); [| done].
    by destruct t; vm_compute. }
  pose proof Ha as Ha'.
  split; [done |].
  apply parse_valid_object in Ha as (fields & -> & _).
  by rewrite mcp_call_object, Ha'.
Qed.

(** X20. A schema with the single field [k: z.string().min(1)], as
    [get-product-by-id] and [get-order-by-id] have, accepts exactly the
    objects whose [k] is a non-empty string, and hands the executor
    [{ k }] and nothing else. *)
Theorem single_id_schema t k raw a :
  shape_of t = [(k, ZString [Min 1])] →
  parse (ZObject (shape_of t)) [] raw = Valid a
  ↔ ∃ s, s ≠ "" ∧ get k raw = VStr s ∧ a = object [(k, VStr s)].
Proof.
  intros ->. split.
  - intros Hp. destruct raw; try discriminate Hp.
    rewrite parse_object_unfold in Hp.
    cbn [parse_fields foldr fst snd] in Hp.
    apply merge_pair_valid in Hp as (v & fs & Hv & [= <-] & ->).
    destruct (get k (VObj fields)) as [| | b | n | s | items | fs] eqn:Hk;
      try discriminate Hv.
    destruct s as [| c s]; [discriminate Hv |].
    injection Hv as <-.
    exists (String c s). split; [done |]. split; reflexivity.
  - intros (s & Hs & Hk & ->). destruct raw; try discriminate Hk.
    rewrite parse_object_unfold.
    cbn [parse_fields foldr fst snd]. rewrite Hk.
    destruct s as [| c s]; [done |].
    assert (parse (ZString [Min 1]) ([] ++ [Key k])%list
              (VStr (String c s)) = Valid (VStr (String c s))) as ->
      by reflexivity.
    reflexivity.
Qed.

(** ** Start-up *)

Lemma env_var_truthy env k :
  truthy (env_var env k) = true
  ↔ ∃ s, s ≠ "" ∧ env !! k = Some s.
Proof.
  unfold env_var. destruct (env !! k) as [s|]; cbn.
  - rewrite negb_true_iff, bool_decide_eq_false. split.
    + intros Hs. by exists s.
    + by intros (s' & Hs & [= ->]).
  - split; [discriminate | by intros (s & _ & [=])].
Qed.

Lemma env_var_falsy env k :
  env !! k = None ∨ env !! k = Some "" → truthy (env_var env k) = false.
Proof. unfold env_var. by intros [-> | ->]. Qed.

(** X21. Start-up exits with code 1 when a credential is given neither
    by a truthy command-line flag nor by a non-empty environment
    variable; the access token is checked first, so its message is the
    one shown when both are missing. *)
Theorem missing_credential_exits argv env :
  (truthy (get "accessToken" argv) = false →
   env !! "SHOPIFY_ACCESS_TOKEN" = None
   ∨ env !! "SHOPIFY_ACCESS_TOKEN" = Some "" →
   start argv env = Exit 1 "Error: SHOPIFY_ACCESS_TOKEN is required.")
  ∧ (truthy (or_else (get "accessToken" argv)
                (env_var env "SHOPIFY_ACCESS_TOKEN")) = true →
     truthy (get "domain" argv) = false →
     env !! "MYSHOPIFY_DOMAIN" = None
     ∨ env !! "MYSHOPIFY_DOMAIN" = Some "" →
     start argv env = Exit 1 "Error: MYSHOPIFY_DOMAIN is required.").
Proof.
  split.
  - intros Hflag Henv%env_var_falsy. unfold start, or_else.
    by rewrite Hflag, Henv.
  - intros Htoken Hflag Henv%env_var_falsy. unfold start.
    rewrite Htoken. cbn [negb]. unfold or_else at 1.
    by rewrite Hflag, Henv.
Qed.

(** X22. When start-up goes through, each credential is the
    command-line flag if that is truthy, and otherwise the non-empty
    environment variable: a flag that is absent, empty, [0] or [false]
    falls back on the environment. *)
Theorem credentials_flag_before_env argv env c :
  start argv env = Ready c →
  (if truthy (get "accessToken" argv)
   then SHOPIFY_ACCESS_TOKEN c = get "accessToken" argv
   else ∃ s, s ≠ "" ∧ env !! "SHOPIFY_ACCESS_TOKEN" = Some s
             ∧ SHOPIFY_ACCESS_TOKEN c = VStr s)
  ∧ (if truthy (get "domain" argv)
     then MYSHOPIFY_DOMAIN c = get "domain" argv
     else ∃ s, s ≠ "" ∧ env !! "MYSHOPIFY_DOMAIN" = Some s
               ∧ MYSHOPIFY_DOMAIN c = VStr s).
Proof.
  unfold start.
  destruct (truthy (or_else (get "accessToken" argv)
                      (env_var env "SHOPIFY_ACCESS_TOKEN"))) eqn:Ht;
    [| discriminate].
  destruct (truthy (or_else (get "domain" argv)
                      (env_var env "MYSHOPIFY_DOMAIN"))) eqn:Hd;
    [| discriminate].
  cbn [negb]. destruct (to_string _); [| discriminate].
  intros [= <-]. cbn [SHOPIFY_ACCESS_TOKEN MYSHOPIFY_DOMAIN].
  unfold or_else in *. split.
  - destruct (truthy (get "accessToken" argv)); [done |].
    apply env_var_truthy in Ht as (tok & Hs & Hl).
    exists tok. unfold env_var. by rewrite Hl.
  - destruct (truthy (get "domain" argv)); [done |].
    apply env_var_truthy in Hd as (dom & Hs & Hl).
    exists dom. unfold env_var. by rewrite Hl.
Qed.

(** X23. When start-up goes through, the GraphQL endpoint is
    [https://<domain>/admin/api/2023-07/graphql.json] for the resolved
    domain, and the port is the [PORT] variable when that is set and
    not empty, else the number 3000. *)
Theorem endpoint_and_port argv env c :
  start argv env = Ready c →
  (∃ d, to_string (MYSHOPIFY_DOMAIN c) = Some d
        ∧ endpoint c = "https://" ++ d ++ "/admin/api/2023-07/graphql.json")
  ∧ PORT c = match env !! "PORT" with
             | Some p => if bool_decide (p = "") then VNum 3000 else VStr p
             | None => VNum 3000
             end.
Proof.
  unfold start.
  destruct (truthy (or_else (get "accessToken" argv) _)); [| discriminate].
  destruct (truthy (or_else (get "domain" argv) _)); [| discriminate].
  cbn [negb]. destruct (to_string _) as [d|] eqn:Hd; [| discriminate].
  intros [= <-]. cbn [MYSHOPIFY_DOMAIN endpoint PORT]. split.
  - by exists d.
  - unfold env_var, or_else. destruct (env !! "PORT") as [p|]; [| done].
    cbn. by case_bool_decide.
Qed.

(** ** The two front ends on omitted fields *)

Lemma declared_default_spec t f sk :
  (f, sk) ∈ shape_of t →
  declared_default t f
  = match sk with ZDefault _ d => Some d | _ => None end.
Proof.
  intros Hin.
  destruct t; cbn [shape_of] in Hin;
    repeat (apply elem_of_cons in Hin as [Hin | Hin]);
    try (by apply elem_of_nil in Hin);
    injection Hin as -> ->; reflexivity.
Qed.

Lemma declared_default_undeclared t f :
  f ∉ declared t → declared_default t f = None.
Proof.
  intros Hf. unfold declared_default.
  destruct (list_find (λ p, p.1 = f) (shape_of t)) as [[i [k sk]]|] eqn:Hfind;
    [| reflexivity].
  apply list_find_Some in Hfind as (Hi & Hk & _). cbn in Hk. subst k.
  exfalso. apply Hf. apply list_elem_of_fmap. exists (f, sk).
  split; [done |]. by apply list_elem_of_lookup_2 in Hi.
Qed.

Lemma get_toolArgs_of f raw : get f (toolArgs_of raw) = get f raw.
Proof.
  assert (get f (object []) = VUndef) as Hempty.
  { unfold object. cbn [foldl get]. by rewrite lookup_empty. }
  destruct raw; try exact Hempty; try reflexivity.
  - by destruct b.
  - unfold toolArgs_of. by rewrite andb_false_r.
  - unfold toolArgs_of.
    by destruct (truthy (VStr s) && typeof_object (VStr s)).
Qed.

(** What the HTTP handler of a tool other than [create-product] makes
    of an omitted field. *)
Lemma handler_omitted t raw f :
  t ≠ CreateProduct →
  get f raw = VUndef →
  get f (processedArgs t (toolArgs_of raw))
  = default VUndef (declared_default t f).
Proof.
  intros Ht Hf.
  destruct (decide (t ∈ builds_processedArgs)) as [Hb | Hb].
  - destruct (decide (f ∈ declared t)) as [Hd | Hd].
    + rewrite processedArgs_field by done. rewrite Hf.
      by destruct (declared_default t f).
    + rewrite processedArgs_undeclared by done.
      by rewrite declared_default_undeclared.
  - destruct t; try congruence;
      try (exfalso; apply Hb; by apply (bool_decide_unpack _));
      cbn [processedArgs]; rewrite get_toolArgs_of, Hf;
      unfold declared_default; cbn [shape_of list_find fst];
      repeat case_decide; reflexivity.
Qed.

(** What the schema of any tool makes of an omitted field. *)
Lemma schema_omitted t o a f :
  parse (ZObject (shape_of t)) [] o = Valid a →
  get f o = VUndef →
  get f a = default VUndef (declared_default t f).
Proof.
  intros Hp Hf.
  destruct (decide (f ∈ declared t)) as [Hd | Hd]; cycle 1.
  { rewrite declared_default_undeclared by done.
    apply get_not_own, not_true_is_false. intros Ho.
    by apply Hd, (schema_only_declared t o a Hp). }
  apply list_elem_of_fmap in Hd as ([k sk] & -> & Hin). cbn [fst] in *.
  destruct (declared_default t k) as [d|] eqn:Hdef.
  { by apply (schema_default t o). }
  pose proof (field_parsed _ _ _ _ _ Hp Hin) as Hk.
  rewrite (declared_default_spec _ _ _ Hin) in Hdef. rewrite Hf in Hk.
  destruct sk; try discriminate Hdef; cbn [parse] in Hk;
    try discriminate Hk.
  by injection Hk as <-.
Qed.

(** C1 (amended). For every tool other than [create-product] the two
    front ends default the same fields to the same values: a field the
    caller omits reaches the executor as the default the schema
    declares for it, and as [undefined] when the schema declares none,
    on the HTTP route and behind the schema alike.  The required fields
    differ: the HTTP handlers require none, the schema requires exactly
    the fields it neither marks optional nor gives a default. *)
Theorem defaults_agree_requirements_differ :
  (∀ t raw, t ≠ CreateProduct → same_defaults t raw)
  ∧ (∀ t f, ¬ required_by_handler t f)
  ∧ (∀ t f, required_by_schema t f ↔ f ∈ required_fields t).
Proof.
  split; [| split].
  - intros t raw Ht f Hf. split.
    + by apply handler_omitted.
    + intros c (o & Hr & Hp & _)%mcp_call_in.
      apply request_arguments_inr in Hr as [Hget _].
      apply (schema_omitted t o); [done |]. by rewrite Hget.
  - apply handler_requires_nothing.
  - apply schema_requires.
Qed.

Lemma parse_fields_all_valid shape path v :
  Forall (λ p, is_valid (parse p.2 (path ++ [Key p.1])%list (get p.1 v))
               = true) shape →
  ∃ fs, parse_fields shape path v = Valid (VObj fs).
Proof.
  induction shape as [| [k sk] rest IH]; intros Hall.
  - by eexists.
  - apply Forall_cons in Hall as [Hk Hrest]. cbn [fst snd] in Hk.
    destruct (IH Hrest) as [fs Hfs].
    cbn [parse_fields foldr fst snd]. fold (parse_fields rest path v).
    rewrite Hfs.
    destruct (parse sk (path ++ [Key k])%list (get k v)) as [vk|];
      [| discriminate Hk].
    by eexists.
Qed.

Lemma limit_field_valid t sk :
  "limit" ∈ declared t →
  ("limit", sk) ∈ shape_of t →
  parse sk [Key "limit"] VUndef = Valid (VNum 10).
Proof.
  intros Hl Hin.
  destruct t;
    try (exfalso; revert Hl; by apply (bool_decide_unpack _));
    cbn [shape_of] in Hin;
    repeat (apply elem_of_cons in Hin as [Hin | Hin]);
    try (by apply elem_of_nil in Hin);
    try discriminate Hin; injection Hin as ->; reflexivity.
Qed.

(** C4. For a tool whose schema declares [limit], a call that omits
    [limit] reaches the executor with [limit = 10].  On the HTTP route
    the executor is called once, with such an object.  Behind the
    schema every executor call carries [limit = 10], and the executor
    is called, once and with [limit = 10], whenever the arguments are
    an object (or absent) whose other declared fields pass their own
    schemas: omitting [limit] never turns a call down. *)
Theorem omitted_limit_is_ten t raw :
  "limit" ∈ declared t →
  get "limit" raw = VUndef →
  (∃ a, calls (post_mcp (tools_call (VStr (tool_name t)) raw) initial).1
        = [(t, a)]
        ∧ get "limit" a = VNum 10)
  ∧ (∀ c, c ∈ calls (mcp_call t raw initial).1 →
       c.1 = t ∧ get "limit" c.2 = VNum 10)
  ∧ (∀ a, parse (ZObject (shape_of t)) [] raw = Valid a →
       calls (mcp_call t raw initial).1 = [(t, a)])
  ∧ (raw = VUndef ∨ (∃ fields, raw = VObj fields) →
     fields_valid_except "limit" t raw = true →
     ∃ a, calls (mcp_call t raw initial).1 = [(t, a)]
          ∧ get "limit" a = VNum 10).
Proof.
  intros Hdecl Hraw. pose proof Hdecl as Hl.
  apply limit_tools in Hdecl as [Ht Hd].
  split; [| split; [| split]].
  - eexists. split; [apply registered_calls |].
    by apply handler_default.
  - intros c (o & Hr & Hp & Hc)%mcp_call_in. split; [done |].
    apply request_arguments_inr in Hr as [Hget _].
    apply (schema_default t o); [done | | done]. by rewrite Hget.
  - intros a Hp. apply parse_valid_object in Hp as (fields & -> & Hp).
    by rewrite mcp_call_object, parse_object_unfold, Hp.
  - intros Hshape Hothers.
    assert (∃ o, request_arguments raw = inr o) as [o Hr].
    { destruct Hshape as [-> | [fields ->]]; by eexists. }
    pose proof (request_arguments_inr _ _ Hr) as [Hget Ho].
    assert (∃ fields, o = VObj fields) as [fields ->].
    { destruct Ho as [[_ ->] | [fields [-> ->]]];
        eexists; reflexivity. }
    destruct (parse_fields_all_valid (shape_of t) [] (VObj fields))
      as [fs Hfs].
    { apply Forall_forall. intros [k sk] Hin. cbn [fst snd app].
      rewrite Hget.
      destruct (decide (k = "limit")) as [-> | Hne].
      - by rewrite Hraw, (limit_field_valid t sk).
      - unfold fields_valid_except in Hothers.
        rewrite forallb_forall in Hothers.
        apply list_elem_of_In, Hothers in Hin. cbn [fst snd] in Hin.
        by rewrite bool_decide_eq_false_2 in Hin. }
    exists (VObj fs). rewrite mcp_call_calls, Hr, parse_object_unfold, Hfs.
    split; [done |].
    apply (schema_default t (VObj fields)); [done | | ].
    + by rewrite Hget.
    + by rewrite parse_object_unfold.
Qed.

End Further.

(** * Further concrete requests *)

(** X1, X2 (witnesses). Registering [get-products] again. *)
Lemma register_again_lookup :
  "get-products" ≠ "__proto__"
  ∧ own "get-products"
      (registerTool "get-products" (handler (H := echo_host) GetOrders)
         (toolHandlers (H := echo_host)))
    = Some (handler (H := echo_host) GetOrders)
  ∧ own "get-orders"
      (registerTool "get-products" (handler (H := echo_host) GetOrders)
         (toolHandlers (H := echo_host)))
    = own "get-orders" (toolHandlers (H := echo_host)).
Proof.
  assert ("get-products" ≠ "__proto__") as Hk by discriminate.
  split; [exact Hk |].
  destruct (registerTool_lookup "get-products" "get-orders"
              (handler (H := echo_host) GetOrders)
              (toolHandlers (H := echo_host)) Hk) as [Hsame Hother].
  split; [exact Hsame |]. apply Hother. discriminate.
Defined.

Lemma register_again_names :
  "get-products" ≠ "__proto__"
  ∧ NoDup (toolHandlers (H := echo_host)).*1
  ∧ "get-products" ∈ (toolHandlers (H := echo_host)).*1
  ∧ registerTool "get-products" (handler (H := echo_host) GetOrders)
      (toolHandlers (H := echo_host))
    = (λ p, if bool_decide (p.1 = "get-products")
            then (p.1, handler (H := echo_host) GetOrders) else p)
        <$> toolHandlers (H := echo_host)
  ∧ own "get-products"
      (registerTool "get-products" (handler (H := echo_host) GetOrders)
         (toolHandlers (H := echo_host)))
    = Some (handler (H := echo_host) GetOrders)
  ∧ NoDup (registerTool "get-products" (handler (H := echo_host) GetOrders)
             (toolHandlers (H := echo_host))).*1.
Proof.
  assert ("get-products" ≠ "__proto__") as Hk by discriminate.
  assert (NoDup (toolHandlers (H := echo_host)).*1) as Hnd
    by (by apply (bool_decide_unpack _)).
  assert ("get-products" ∈ (toolHandlers (H := echo_host)).*1) as Hin
    by (by apply (bool_decide_unpack _)).
  destruct (registerTool_names "get-products"
              (handler (H := echo_host) GetOrders)
              (toolHandlers (H := echo_host)) Hk Hnd)
    as (Hsame & _ & Hown & Hnd').
  split; [exact Hk |]. split; [exact Hnd |]. split; [exact Hin |].
  split; [exact (proj1 (Hsame Hin)) |]. split; [exact Hown | exact Hnd'].
Defined.

(** X4 (witness). *)
Lemma tools_list_with_params :
  get "method" (object [("method", VStr "tools/list"); ("params", VNull)])
  = VStr "tools/list"
  ∧ statusCode
      (post_mcp (H := echo_host)
         (object [("method", VStr "tools/list"); ("params", VNull)])
         initial).1 = 200
  ∧ calls
      (post_mcp (H := echo_host)
         (object [("method", VStr "tools/list"); ("params", VNull)])
         initial).1 = [].
Proof.
  split; [reflexivity |].
  rewrite (tools_list_response (H := echo_host)
             (object [("method", VStr "tools/list"); ("params", VNull)])
             eq_refl).
  split; reflexivity.
Defined.

(** X5 (witness). *)
Lemma method_tools_run :
  get "method" (object [("method", VStr "tools/run")]) = VStr "tools/run"
  ∧ post_mcp (H := echo_host) (object [("method", VStr "tools/run")])
      initial
    = ({| calls := []; statusCode := 400;
          sent := Some (object [("error", VStr "Unknown method")]) |},
       Ok ()).
Proof.
  split; [reflexivity |].
  apply (unknown_method_is_bad_request (H := echo_host));
    [discriminate | discriminate
     | intros Hm; vm_compute in Hm; discriminate Hm
     | intros Hm; vm_compute in Hm; discriminate Hm].
Defined.

(** X6 (witness). *)
Lemma get_product_by_id_succeeds :
  execute (Host := echo_host) GetProductById
    (processedArgs GetProductById
       (toolArgs_of (object [("productId", VStr "42")])))
  = Ok (object [("productId", VStr "42")])
  ∧ post_mcp (H := echo_host)
      (tools_call (VStr "get-product-by-id")
         (object [("productId", VStr "42")])) initial
    = ({| calls := [(GetProductById, object [("productId", VStr "42")])];
          statusCode := 200;
          sent := Some (object
            [("content",
              VArr [object [("type", VStr "text");
                            ("text", VStr "{}")]])]) |},
       Ok ()).
Proof.
  split; [reflexivity |].
  exact (success_envelope (H := echo_host) GetProductById
           (object [("productId", VStr "42")]) _ eq_refl).
Defined.

(** X8 (witness). An executor rejecting with [null], and one rejecting
    with a string. *)
Lemma rejection_with_null_and_with_string :
  (∃ body,
     post_mcp (H := raising_host VNull)
       (tools_call (VStr "get-orders") (object [])) initial
     = ({| calls := [(GetOrders, processedArgs GetOrders (object []))];
           statusCode := 500; sent := Some body |}, Ok ())
     ∧ has_own "details" body = false)
  ∧ post_mcp (H := raising_host (VStr "boom"))
      (tools_call (VStr "get-orders") (object [])) initial
    = ({| calls := [(GetOrders, processedArgs GetOrders (object []))];
          statusCode := 500;
          sent := Some (object
                          [("error", VStr "Tool execution failed");
                           ("details", VUndef)]) |}, Ok ()).
Proof.
  split.
  - destruct (non_error_rejection (H := raising_host VNull)
                GetOrders (object []) VNull eq_refl)
      as (body & Hrun & Hnull & _).
    exists body. split; [exact Hrun |].
    exact (proj1 (Hnull (or_introl eq_refl))).
  - destruct (non_error_rejection (H := raising_host (VStr "boom"))
                GetOrders (object []) (VStr "boom") eq_refl)
      as (body & Hrun & _ & Hother).
    rewrite (Hother ltac:(discriminate) ltac:(discriminate)) in Hrun.
    exact Hrun.
Defined.

(** X9 (witness). *)
Lemma name_in_an_array :
  "get-products" ≠ ""
  ∧ post_mcp (H := echo_host)
      (tools_call (VArr [VStr "get-products"]) (object [])) initial
    = post_mcp (H := echo_host)
        (tools_call (VStr "get-products") (object [])) initial.
Proof.
  split; [discriminate |].
  apply (array_name_is_its_element (H := echo_host)). discriminate.
Defined.

(** X10 (witness). *)
Lemma string_arguments :
  post_mcp (H := echo_host)
    (tools_call (VStr "get-products") (VStr "limit=5")) initial
  = post_mcp (H := echo_host)
      (tools_call (VStr "get-products") (object [])) initial.
Proof.
  apply (non_object_arguments_as_empty (H := echo_host));
    intros ?; discriminate.
Defined.

(** X11 (witness). [get-orders] with [status: null], a string [limit]
    and a field the schema does not declare. *)
Lemma get_orders_null_status :
  GetOrders ∈ builds_processedArgs
  ∧ get "status"
      (processedArgs GetOrders
         (toolArgs_of (object [("status", VNull); ("limit", VStr "5");
                               ("debug", VBool true)])))
    = VStr "any"
  ∧ get "limit"
      (processedArgs GetOrders
         (toolArgs_of (object [("status", VNull); ("limit", VStr "5");
                               ("debug", VBool true)])))
    = VStr "5"
  ∧ get "debug"
      (processedArgs GetOrders
         (toolArgs_of (object [("status", VNull); ("limit", VStr "5");
                               ("debug", VBool true)])))
    = VUndef.
Proof.
  assert (GetOrders ∈ builds_processedArgs) as Ht
    by (by apply (bool_decide_unpack _)).
  split; [exact Ht |]. split; [| split].
  - exact (handler_copies_declared_fields GetOrders
             (object [("status", VNull); ("limit", VStr "5");
                      ("debug", VBool true)]) "status" Ht).
  - exact (handler_copies_declared_fields GetOrders
             (object [("status", VNull); ("limit", VStr "5");
                      ("debug", VBool true)]) "limit" Ht).
  - exact (handler_copies_declared_fields GetOrders
             (object [("status", VNull); ("limit", VStr "5");
                      ("debug", VBool true)]) "debug" Ht).
Defined.

(** X12 (witness). *)
Lemma customer_orders_same_reads :
  GetCustomerOrders ∈ builds_processedArgs
  ∧ parse (H := echo_host) (ZObject (shape_of GetCustomerOrders)) []
      (object [("customerId", VStr "12345"); ("debug", VBool true)])
    = Valid (object [("customerId", VStr "12345"); ("limit", VNum 10)])
  ∧ get "limit"
      (processedArgs GetCustomerOrders
         (toolArgs_of
            (object [("customerId", VStr "12345"); ("debug", VBool true)])))
    = get "limit"
        (object [("customerId", VStr "12345"); ("limit", VNum 10)]).
Proof.
  assert (GetCustomerOrders ∈ builds_processedArgs) as Ht
    by (by apply (bool_decide_unpack _)).
  split; [exact Ht |]. split; [reflexivity |].
  exact (builders_agree_with_schema (H := echo_host) GetCustomerOrders
           (object [("customerId", VStr "12345"); ("debug", VBool true)])
           (object [("customerId", VStr "12345"); ("limit", VNum 10)])
           "limit" Ht eq_refl).
Defined.


(** X14 (witness). *)
Lemma debug_field_ignored :
  ("debug" ∉ declared GetProducts)
  ∧ mcp_call (H := echo_host) GetProducts
      (VObj (<["debug" := VBool true]> {["searchTitle" := VStr "mug"]}))
      initial
    = mcp_call (H := echo_host) GetProducts
        (VObj {["searchTitle" := VStr "mug"]}) initial.
Proof.
  assert ("debug" ∉ declared GetProducts) as Hx
    by (by apply (bool_decide_unpack _)).
  split; [exact Hx |].
  by apply (schema_ignores_undeclared (H := echo_host)).
Defined.

(** X15 (witness). [create-product] with an empty title. *)
Lemma empty_title_rejected :
  ("title", ZString [Min 1]) ∈ shape_of CreateProduct
  ∧ parse (H := echo_host) (ZString [Min 1]) [Key "title"]
      (get "title" (object [("title", VStr ""); ("vendor", VStr "Acme")]))
    = Invalid [{| issue_path := [Key "title"]; code := too_small;
                  custom_message := None |}]
  ∧ ∃ issues,
      mcp_call (H := echo_host) CreateProduct
        (object [("title", VStr ""); ("vendor", VStr "Acme")]) initial
      = (initial, Ok (inl issues)).
Proof.
  assert (("title", ZString [Min 1]) ∈ shape_of CreateProduct) as Hin
    by repeat constructor.
  split; [exact Hin |]. split; [reflexivity |].
  exact (invalid_field_rejects (H := echo_host) CreateProduct
           (object [("title", VStr ""); ("vendor", VStr "Acme")])
           "title" _ _ Hin eq_refl).
Defined.

(** X16 (witness). [update-order] with [email: "not-an-email"]. *)
Lemma not_an_email_rejected :
  get "email" (object [("id", VStr "1"); ("email", VStr "not-an-email")])
  = VStr "not-an-email"
  ∧ is_email (Host := strict_host) "not-an-email" = false
  ∧ (∃ issues,
       mcp_call (H := strict_host) UpdateOrder
         (object [("id", VStr "1"); ("email", VStr "not-an-email")])
         initial
       = (initial, Ok (inl issues)))
  ∧ calls (post_mcp (H := strict_host)
             (tools_call (VStr "update-order")
                (object [("id", VStr "1");
                         ("email", VStr "not-an-email")])) initial).1
    = [(UpdateOrder,
        object [("id", VStr "1"); ("email", VStr "not-an-email")])]
  ∧ parse (H := strict_host) (ZObject (shape_of UpdateOrder)) []
      (object [("id", VStr "1"); ("email", VStr "a@b.com")])
    = Valid (object [("id", VStr "1"); ("email", VStr "a@b.com")]).
Proof.
  split; [reflexivity |]. split; [reflexivity |].
  destruct (email_checked_by_schema_only (H := strict_host) UpdateOrder
              (object [("id", VStr "1"); ("email", VStr "not-an-email")])
              "not-an-email" (or_introl eq_refl) eq_refl eq_refl)
    as [Hmcp Hhttp].
  split; [exact Hmcp |]. split; [exact Hhttp | reflexivity].
Defined.

(** X17 (witness). *)
Lemma title_reaches_executor :
  parse (H := echo_host) (ZObject (shape_of CreateProduct)) []
    (object [("title", VStr "Mug")])
  = Valid (object [("title", VStr "Mug"); ("status", VStr "DRAFT")])
  ∧ "title" ∈ required_fields CreateProduct
  ∧ ∃ s, s ≠ ""
         ∧ get "title" (object [("title", VStr "Mug")]) = VStr s
         ∧ get "title"
             (object [("title", VStr "Mug"); ("status", VStr "DRAFT")])
           = VStr s.
Proof.
  assert ("title" ∈ required_fields CreateProduct) as Hf
    by (by apply (bool_decide_unpack _)).
  split; [reflexivity |]. split; [exact Hf |].
  exact (required_fields_are_non_empty (H := echo_host) CreateProduct
           (object [("title", VStr "Mug")])
           (object [("title", VStr "Mug"); ("status", VStr "DRAFT")])
           "title" eq_refl Hf).
Defined.

(** X18 (witness). *)
Lemma get_orders_typed_defaults :
  parse (H := echo_host) (ZObject (shape_of GetOrders)) [] (object [])
  = Valid (object [("status", VStr "any"); ("limit", VNum 10)])
  ∧ "limit" ∈ declared GetOrders
  ∧ (∃ n, get "limit" (object [("status", VStr "any"); ("limit", VNum 10)])
          = VNum n ∧ PrimFloat.is_nan n = false)
  ∧ (∃ s, get "status"
            (object [("status", VStr "any"); ("limit", VNum 10)]) = VStr s
          ∧ s ∈ ["any"; "open"; "closed"; "cancelled"]).
Proof.
  assert ("limit" ∈ declared GetOrders) as Hl
    by (by apply (bool_decide_unpack _)).
  destruct (defaulted_fields_are_typed (H := echo_host) GetOrders
              (object [])
              (object [("status", VStr "any"); ("limit", VNum 10)])
              eq_refl) as (Hlimit & Hstatus & _).
  split; [reflexivity |]. split; [exact Hl |].
  split; [exact (Hlimit Hl) | exact (Hstatus eq_refl)].
Defined.

(** X19 (witness). *)
Lemma defaulted_get_products_stable :
  parse (H := echo_host) (ZObject (shape_of GetProducts)) [] (object [])
  = Valid (object [("limit", VNum 10)])
  ∧ parse (H := echo_host) (ZObject (shape_of GetProducts)) []
      (object [("limit", VNum 10)])
    = Valid (object [("limit", VNum 10)])
  ∧ calls (mcp_call (H := echo_host) GetProducts
             (object [("limit", VNum 10)]) initial).1
    = [(GetProducts, object [("limit", VNum 10)])].
Proof.
  split; [reflexivity |].
  exact (validated_arguments_are_stable (H := echo_host) GetProducts
           (object []) (object [("limit", VNum 10)]) eq_refl).
Defined.

(** X20 (witness). *)
Lemma product_id_schema :
  shape_of GetProductById = [("productId", ZString [Min 1])]
  ∧ (parse (H := echo_host) (ZObject (shape_of GetProductById)) []
       (object [("productId", VStr "42"); ("debug", VBool true)])
     = Valid (object [("productId", VStr "42")]))
  ∧ ¬ (∃ a, parse (H := echo_host) (ZObject (shape_of GetProductById)) []
              (object [("productId", VStr "")]) = Valid a).
Proof.
  split; [reflexivity |]. split.
  - apply (single_id_schema (H := echo_host) GetProductById "productId");
      [reflexivity |].
    exists "42". split; [discriminate |]. split; reflexivity.
  - intros [a Ha].
    apply (single_id_schema (H := echo_host) GetProductById "productId")
      in Ha as (s & Hs & Hk & _); [| reflexivity].
    vm_compute in Hk. injection Hk as <-. by apply Hs.
Defined.

(** X21 (witness). Nothing given at all, and a token without a domain. *)
Lemma start_without_credentials :
  start (H := echo_host) (object []) ∅
  = Exit 1 "Error: SHOPIFY_ACCESS_TOKEN is required."
  ∧ start (H := echo_host) (object [("accessToken", VStr "shpat_1")]) ∅
    = Exit 1 "Error: MYSHOPIFY_DOMAIN is required.".
Proof.
  split.
  - apply (proj1 (missing_credential_exits (H := echo_host) (object []) ∅));
      [reflexivity | by left].
  - apply (proj2 (missing_credential_exits (H := echo_host)
                    (object [("accessToken", VStr "shpat_1")]) ∅));
      [reflexivity | reflexivity | by left].
Defined.

(** X22, X23 (witnesses). An empty [--accessToken] flag with the token
    in the environment, the domain on the command line, no [PORT]. *)
Lemma start_with_env_token :
  start (H := echo_host)
    (object [("accessToken", VStr "");
             ("domain", VStr "shop.myshopify.com")])
    {["SHOPIFY_ACCESS_TOKEN" := "shpat_1"]}
  = Ready {| SHOPIFY_ACCESS_TOKEN := VStr "shpat_1";
             MYSHOPIFY_DOMAIN := VStr "shop.myshopify.com";
             PORT := VNum 3000;
             endpoint :=
               "https://shop.myshopify.com/admin/api/2023-07/graphql.json" |}
  ∧ (∃ s, s ≠ ""
          ∧ ({["SHOPIFY_ACCESS_TOKEN" := "shpat_1"]} : gmap string string)
              !! "SHOPIFY_ACCESS_TOKEN" = Some s
          ∧ VStr "shpat_1" = VStr s)
  ∧ VStr "shop.myshopify.com" = VStr "shop.myshopify.com".
Proof.
  split; [reflexivity |].
  exact (credentials_flag_before_env (H := echo_host)
           (object [("accessToken", VStr "");
                    ("domain", VStr "shop.myshopify.com")])
           {["SHOPIFY_ACCESS_TOKEN" := "shpat_1"]} _ eq_refl).
Defined.

Lemma start_endpoint_and_port :
  start (H := echo_host)
    (object [("domain", VStr "shop.myshopify.com")])
    {["SHOPIFY_ACCESS_TOKEN" := "shpat_1"; "PORT" := "8080"]}
  = Ready {| SHOPIFY_ACCESS_TOKEN := VStr "shpat_1";
             MYSHOPIFY_DOMAIN := VStr "shop.myshopify.com";
             PORT := VStr "8080";
             endpoint :=
               "https://shop.myshopify.com/admin/api/2023-07/graphql.json" |}
  ∧ (∃ d, to_string (H := echo_host) (VStr "shop.myshopify.com") = Some d
          ∧ "https://shop.myshopify.com/admin/api/2023-07/graphql.json"
            = "https://" ++ d ++ "/admin/api/2023-07/graphql.json")
  ∧ VStr "8080" = VStr "8080".
Proof.
  split; [reflexivity |].
  exact (endpoint_and_port (H := echo_host)
           (object [("domain", VStr "shop.myshopify.com")])
           {["SHOPIFY_ACCESS_TOKEN" := "shpat_1"; "PORT" := "8080"]}
           _ eq_refl).
Defined.

(** C1 (witness). [get-orders] called with no arguments: both front
    ends resolve [status] to ["any"] and [limit] to 10, and neither
    invents a field the schema has no default for. *)
Lemma get_orders_defaults_agree :
  GetOrders ≠ CreateProduct
  ∧ processedArgs GetOrders (toolArgs_of (object []))
    = object [("status", VStr "any"); ("limit", VNum 10)]
  ∧ calls (mcp_call (H := echo_host) GetOrders (object []) initial).1
    = [(GetOrders, object [("status", VStr "any"); ("limit", VNum 10)])]
  ∧ get "status" (processedArgs GetOrders (toolArgs_of (object [])))
    = VStr "any"
  ∧ get "status" (object [("status", VStr "any"); ("limit", VNum 10)])
    = VStr "any"
  ∧ get "customerId" (processedArgs GetOrders (toolArgs_of (object [])))
    = VUndef.
Proof.
  assert (GetOrders ≠ CreateProduct) as Hne by discriminate.
  pose proof (proj1 (defaults_agree_requirements_differ (H := echo_host))
                GetOrders (object []) Hne) as Hsame.
  destruct (Hsame "status" eq_refl) as [Hhttp Hmcp].
  destruct (Hsame "customerId" eq_refl) as [Hhttp' _].
  split; [exact Hne |]. split; [reflexivity |]. split; [reflexivity |].
  split; [exact Hhttp |]. split; [| exact Hhttp'].
  apply (Hmcp (GetOrders,
               object [("status", VStr "any"); ("limit", VNum 10)])).
  apply list_elem_of_here.
Defined.

(** C4 (witness). [get-orders] called with a status only. *)
Lemma get_orders_limit_is_ten :
  "limit" ∈ declared GetOrders
  ∧ get "limit" (object [("status", VStr "open")]) = VUndef
  ∧ fields_valid_except (H := echo_host) "limit" GetOrders
      (object [("status", VStr "open")]) = true
  ∧ (∃ a, calls (post_mcp (H := echo_host)
                   (tools_call (VStr "get-orders")
                      (object [("status", VStr "open")])) initial).1
          = [(GetOrders, a)]
          ∧ get "limit" a = VNum 10)
  ∧ (∃ a, calls (mcp_call (H := echo_host) GetOrders
                   (object [("status", VStr "open")]) initial).1
          = [(GetOrders, a)]
          ∧ get "limit" a = VNum 10)
  ∧ calls (mcp_call (H := echo_host) GetOrders
             (object [("status", VStr "open")]) initial).1
    = [(GetOrders, object [("status", VStr "open"); ("limit", VNum 10)])].
Proof.
  assert ("limit" ∈ declared GetOrders) as Hin
    by (by apply (bool_decide_unpack _)).
  pose proof (omitted_limit_is_ten (H := echo_host) GetOrders
                (object [("status", VStr "open")]) Hin eq_refl)
    as (Hhttp & _ & Hvalid & Hmcp).
  split; [exact Hin |]. split; [reflexivity |]. split; [reflexivity |].
  split; [exact Hhttp |]. split.
  - apply Hmcp; [right; by eexists | reflexivity].
  - apply Hvalid. reflexivity.
Defined.
